(** * secplus: the Security+ / Security+ 2.0 codec of [secplus.py]

    A shallow embedding of the encoders and decoders of [secplus.py] and the
    properties of them that the specification states.

    Python integers are unbounded and are modelled by [Z]; [//] and [%] with a
    positive divisor are [Z.div] and [Z.modulo]; [<<], [>>], [&], [|] and [^]
    are [Z.shiftl], [Z.shiftr], [Z.land], [Z.lor] and [Z.lxor].  Lists of
    integers are [list Z], a [str] is a [list ascii], a [bytes] object is a
    [list byte].  A raised exception is the [Raise] branch of [result]. *)

From Stdlib Require Import Ascii String DecimalString ZArith List Bool Lia.
From Stdlib.Strings Require Import Byte.
Import ListNotations.
Open Scope Z_scope.

(** ** Exceptions and the error monad *)

Module Py.

Inductive exn : Type :=
| ValueError (msg : string)
| IndexError
| KeyError
| TypeError.

Inductive result (A : Type) : Type :=
| Ok (a : A)
| Raise (e : exn).

Arguments Ok {A} a.
Arguments Raise {A} e.

Definition bind {A B : Type} (m : result A) (k : A -> result B) : result B :=
  match m with
  | Ok a => k a
  | Raise e => Raise e
  end.

(** [for x in xs: body], the loop state threaded through the iterations. *)
Fixpoint for_each {I S : Type} (xs : list I) (body : S -> I -> result S)
  (st : S) : result S :=
  match xs with
  | [] => Ok st
  | x :: xs' => bind (body st x) (for_each xs' body)
  end.

(** [[f(x) for x in xs]] for an [f] that can raise. *)
Fixpoint map_m {A B : Type} (f : A -> result B) (xs : list A)
  : result (list B) :=
  match xs with
  | [] => Ok []
  | x :: xs' =>
      bind (f x) (fun y => bind (map_m f xs') (fun ys => Ok (y :: ys)))
  end.

End Py.

Import Py.

Notation "x <- m ;; k" := (bind m (fun x => k))
  (at level 61, m at next level, right associativity).
Notation "' p <- m ;; k" := (bind m (fun x => let 'p := x in k))
  (at level 61, p pattern, m at next level, right associativity).

(** ** Python sequences *)

Section Sequences.
Context {A : Type}.

(** [l[i]] for an index [i >= 0]. *)
Definition getitem (l : list A) (i : nat) : result A :=
  match nth_error l i with
  | Some x => Ok x
  | None => Raise IndexError
  end.

(** [l[i] = v] for an index [i >= 0]. *)
Fixpoint setitem (l : list A) (i : nat) (v : A) : result (list A) :=
  match l, i with
  | [], _ => Raise IndexError
  | _ :: l', O => Ok (v :: l')
  | x :: l', S i' => l'' <- setitem l' i' v ;; Ok (x :: l'')
  end.

(** [l[a:b]] for [0 <= a <= b]; [l[a:]] is [skipn a l], [l[:b]] is
    [firstn b l]. *)
Definition slice (l : list A) (a b : nat) : list A :=
  firstn (b - a) (skipn a l).

(** [l[-k:]] and [l[:-k]] for [k > 0]. *)
Definition last_k (l : list A) (k : nat) : list A :=
  skipn (length l - k) l.
Definition drop_last_k (l : list A) (k : nat) : list A :=
  firstn (length l - k) l.

(** [l[start::step]]: [k] counts the entries to skip before the next one
    that is kept. *)
Fixpoint every (step : nat) (k : nat) (l : list A) : list A :=
  match l with
  | [] => []
  | x :: l' =>
      match k with
      | O => x :: every step (step - 1) l'
      | S k' => every step k' l'
      end
  end.
Definition slice_step (l : list A) (start step : nat) : list A :=
  every step start l.
End Sequences.

(** [range(start, stop, step)] for a positive step, and the descending
    [range(n - 1, -1, -1)]. *)
Definition range (start stop step : nat) : list nat :=
  map (fun k => (start + k * step)%nat)
      (seq 0 ((stop - start + (step - 1)) / step)).
Definition range_down (n : nat) : list nat := rev (seq 0 n).

(** ** Formatting and parsing binary numerals *)

Definition str := list ascii.

Fixpoint pos_bin (p : positive) : str :=
  match p with
  | xH => ["1"%char]
  | xO q => pos_bin q ++ ["0"%char]
  | xI q => pos_bin q ++ ["1"%char]
  end.

Definition zfill (w : nat) (s : str) : str :=
  repeat "0"%char (w - length s) ++ s.

(** [f"{n:0{w}b}"]: the binary digits of [n], most significant first, padded
    with zeros to [w] characters (the sign of a negative number counts in
    the width and comes first). *)
Definition format_b (w : nat) (n : Z) : str :=
  match n with
  | Z0 => zfill w ["0"%char]
  | Zpos p => zfill w (pos_bin p)
  | Zneg p => "-"%char :: zfill (w - 1) (pos_bin p)
  end.

Definition bin_digit (c : ascii) : option Z :=
  if Ascii.eqb c "0" then Some 0
  else if Ascii.eqb c "1" then Some 1
  else None.

Fixpoint parse_bin (s : str) (acc : Z) : option Z :=
  match s with
  | [] => Some acc
  | c :: s' =>
      match bin_digit c with
      | Some d => parse_bin s' (2 * acc + d)
      | None => None
      end
  end.

Definition invalid_literal : exn :=
  ValueError "invalid literal for int() with base 2".

(** [int(s, 2)] on the strings that reach it here, which are made of decimal
    digits and ["-"] only: an optional leading ["-"], then one or more
    binary digits. *)
Definition int_base2 (s : str) : result Z :=
  match s with
  | [] => Raise invalid_literal
  | c :: s' =>
      if Ascii.eqb c "-" then
        match s' with
        | [] => Raise invalid_literal
        | _ :: _ =>
            match parse_bin s' 0 with
            | Some n => Ok (- n)
            | None => Raise invalid_literal
            end
        end
      else
        match parse_bin s 0 with
        | Some n => Ok n
        | None => Raise invalid_literal
        end
  end.

(** [int(f"{n:0{w}b}"[::-1], 2)] *)
Definition reverse_bits (w : nat) (n : Z) : result Z :=
  int_base2 (rev (format_b w n)).

(** ** Security+ (v1) *)

Definition decode_state : Type := Z * Z * Z.

Definition decode_body (code : list Z) (st : decode_state) (i : nat)
  : result decode_state :=
  let '(rolling, fixed, acc) := st in
  let acc := if existsb (Nat.eqb i) [0; 20]%nat then 0 else acc in
  digit <- getitem code i ;;
  let rolling := rolling * 3 + digit in
  let acc := acc + digit in
  c <- getitem code (i + 1) ;;
  let digit := (c - acc) mod 3 in
  let fixed := fixed * 3 + digit in
  let acc := acc + digit in
  Ok (rolling, fixed, acc).

Definition decode (code : list Z) : result (Z * Z) :=
  '(rolling, fixed, _) <- for_each (range 0 40 2) (decode_body code) (0, 0, 0) ;;
  rolling <- reverse_bits 32 rolling ;;
  Ok (rolling, fixed).

Definition base3_state : Type := list Z * list Z * Z * Z.

Definition encode_base3_body (st : base3_state) (i : nat)
  : result base3_state :=
  let '(rolling_base3, fixed_base3, rolling, fixed) := st in
  rolling_base3 <- setitem rolling_base3 i (rolling mod 3) ;;
  let rolling := rolling / 3 in
  fixed_base3 <- setitem fixed_base3 i (fixed mod 3) ;;
  let fixed := fixed / 3 in
  Ok (rolling_base3, fixed_base3, rolling, fixed).

Definition encode_code_body (rolling_base3 fixed_base3 : list Z)
  (st : list Z * Z) (i : nat) : result (list Z * Z) :=
  let '(code, acc) := st in
  let acc := if existsb (Nat.eqb i) [0; 10]%nat then 0 else acc in
  r <- getitem rolling_base3 i ;;
  let acc := acc + r in
  let code := code ++ [r] in
  f <- getitem fixed_base3 i ;;
  let acc := acc + f in
  let code := code ++ [acc mod 3] in
  Ok (code, acc).

Definition encode (rolling fixed : Z) : result (list Z) :=
  if rolling >=? 2 ^ 32 then
    Raise (ValueError "Rolling code must be less than 2^32")
  else if fixed >=? 3 ^ 20 then
    Raise (ValueError "Fixed code must be less than 3^20")
  else
    rolling <- reverse_bits 32 (Z.land rolling 0xfffffffe) ;;
    '(rolling_base3, fixed_base3, _, _) <-
      for_each (range_down 20) encode_base3_body
        (repeat 0 20, repeat 0 20, rolling, fixed) ;;
    '(code, _) <-
      for_each (seq 0 20) (encode_code_body rolling_base3 fixed_base3)
        ([], 0) ;;
    Ok code.

(** ** Security+ 2.0: the scrambling tables *)

(** A [dict] with integer keys, as the list of its items. *)
Fixpoint dict_get {V : Type} (d : list (Z * V)) (k : Z) : result V :=
  match d with
  | [] => Raise KeyError
  | (k', v) :: d' => if k =? k' then Ok v else dict_get d' k
  end.

Definition _ORDER : list (Z * list nat) :=
  [ (0x0, [0; 2; 1]%nat); (0x1, [2; 0; 1]%nat); (0x2, [0; 1; 2]%nat);
    (0x4, [1; 2; 0]%nat); (0x5, [1; 0; 2]%nat); (0x6, [2; 1; 0]%nat);
    (0x8, [1; 2; 0]%nat); (0x9, [2; 1; 0]%nat); (0xa, [0; 1; 2]%nat) ].

Definition _INVERT : list (Z * list bool) :=
  [ (0x0, [true; true; false]); (0x1, [false; true; false]);
    (0x2, [false; false; true]); (0x4, [true; true; true]);
    (0x5, [true; false; true]); (0x6, [false; true; true]);
    (0x8, [true; false; false]); (0x9, [false; false; false]);
    (0xa, [true; false; true]) ].

(** [(indicator[o] << 3) | (indicator[o+1] << 2) | (indicator[o+2] << 1)
    | indicator[o+3]] *)
Definition selector (indicator : list Z) (o : nat) : result Z :=
  a <- getitem indicator o ;;
  b <- getitem indicator (o + 1) ;;
  c <- getitem indicator (o + 2) ;;
  d <- getitem indicator (o + 3) ;;
  Ok (Z.lor (Z.lor (Z.lor (Z.shiftl a 3) (Z.shiftl b 2)) (Z.shiftl c 1)) d).

(** The two table lookups that open both [_v2_unscramble] and
    [_v2_scramble]. *)
Definition lookup_tables (indicator : list Z)
  : result (list nat * list bool) :=
  k <- selector indicator 0 ;;
  order <- dict_get _ORDER k ;;
  k <- selector indicator 4 ;;
  invert <- dict_get _INVERT k ;;
  Ok (order, invert).

Definition invert_bits (part : list Z) : list Z :=
  map (fun bit => Z.lxor bit 1) part.

(** [for i in range(3): if invert[i]: parts_permuted[i] = [bit ^ 1 ...]] *)
Definition invert_body (invert : list bool) (parts_permuted : list (list Z))
  (i : nat) : result (list (list Z)) :=
  inv <- getitem invert i ;;
  if (inv : bool) then
    p <- getitem parts_permuted i ;;
    setitem parts_permuted i (invert_bits p)
  else Ok parts_permuted.

(** [for i in range(3): parts[order[i]] = parts_permuted[i]] *)
Definition place_body (order : list nat) (parts_permuted : list (list Z))
  (parts : list (list Z)) (i : nat) : result (list (list Z)) :=
  p <- getitem parts_permuted i ;;
  o <- getitem order i ;;
  setitem parts o p.

Definition illegal_ternary : exn := ValueError "Illegal value for ternary bit".

Definition _v2_unscramble (indicator payload : list Z)
  : result (list (list Z)) :=
  '(order, invert) <-
    match lookup_tables indicator with
    | Raise KeyError => Raise illegal_ternary
    | r => r
    end ;;
  let parts_permuted :=
    [slice_step payload 0 3; slice_step payload 1 3; slice_step payload 2 3] in
  parts_permuted <- for_each (seq 0 3) (invert_body invert) parts_permuted ;;
  for_each (seq 0 3) (place_body order parts_permuted) [[]; []; []].

(** [payload += [parts_permuted[0][i], parts_permuted[1][i],
                 parts_permuted[2][i]]] *)
Definition interleave_body (parts_permuted : list (list Z))
  (payload : list Z) (i : nat) : result (list Z) :=
  p0 <- getitem parts_permuted 0 ;;
  a <- getitem p0 i ;;
  p1 <- getitem parts_permuted 1 ;;
  b <- getitem p1 i ;;
  p2 <- getitem parts_permuted 2 ;;
  c <- getitem p2 i ;;
  Ok (payload ++ [a; b; c]).

Definition _v2_scramble (indicator : list Z) (parts : list (list Z))
  : result (list Z) :=
  '(order, invert) <- lookup_tables indicator ;;
  parts_permuted <-
    map_m (fun i => o <- getitem order i ;; getitem parts o) (seq 0 3) ;;
  parts_permuted <- for_each (seq 0 3) (invert_body invert) parts_permuted ;;
  p0 <- getitem parts_permuted 0 ;;
  for_each (seq 0 (length p0)) (interleave_body parts_permuted) [].

(** ** Security+ 2.0: the rolling code across the two halves *)

Definition _decode_v2_rolling (rolling1 rolling2 : list Z) : result Z :=
  let rolling_digits := skipn 8 rolling2 ++ skipn 8 rolling1 in
  let rolling_digits :=
    rolling_digits ++ (slice rolling2 4 8 ++ slice rolling1 4 8) in
  let rolling_digits :=
    rolling_digits ++ (firstn 4 rolling2 ++ firstn 4 rolling1) in
  let rolling :=
    fold_left (fun rolling digit => rolling * 3 + digit) rolling_digits 0 in
  if rolling >=? 2 ^ 28 then
    Raise (ValueError "Rolling code was not in expected range")
  else reverse_bits 28 rolling.

Definition rolling_base3_body (st : list Z * Z) (i : nat)
  : result (list Z * Z) :=
  let '(rolling_base3, rolling) := st in
  rolling_base3 <- setitem rolling_base3 i (rolling mod 3) ;;
  Ok (rolling_base3, rolling / 3).

Definition _encode_v2_rolling (rolling : Z) : result (list Z * list Z) :=
  rolling <- reverse_bits 28 rolling ;;
  '(rolling_base3, _) <-
    for_each (range_down 18) rolling_base3_body (repeat 0 18, rolling) ;;
  let rolling1 :=
    slice rolling_base3 14 18 ++ slice rolling_base3 6 10
      ++ slice rolling_base3 1 2 in
  let rolling2 :=
    slice rolling_base3 10 14 ++ slice rolling_base3 2 6
      ++ slice rolling_base3 0 1 in
  Ok (rolling1, rolling2).

(** ** Security+ 2.0: packet halves *)

Fixpoint list_eqb (l1 l2 : list Z) : bool :=
  match l1, l2 with
  | [], [] => true
  | x :: l1', y :: l2' => (x =? y) && list_eqb l1' l2'
  | _, _ => false
  end.

(** [for i in range(0, len(bits), 2):
       rolling.append((bits[i] << 1) | bits[i+1])] *)
Definition append_pairs (bits : list Z) (rolling : list Z)
  : result (list Z) :=
  for_each (range 0 (length bits) 2)
    (fun rolling i =>
       hi <- getitem bits i ;;
       lo <- getitem bits (i + 1) ;;
       Ok (rolling ++ [Z.lor (Z.shiftl hi 1) lo]))
    rolling.

Definition half : Type := list Z * list Z * option (list Z).

Definition _decode_v2_half_parts (packet_type : Z) (indicator payload : list Z)
  : result half :=
  payload_length <-
    (if packet_type =? 0 then Ok 30%nat
     else if packet_type =? 1 then Ok 54%nat
     else if packet_type =? 2 then
       Raise (ValueError "Unsupported packet type")
     else Raise (ValueError "Invalid packet type")) ;;
  if negb (length payload =? payload_length)%nat then
    Raise (ValueError "Incorrect payload length")
  else
    parts <- _v2_unscramble indicator payload ;;
    rolling <- append_pairs indicator [] ;;
    parts2 <- getitem parts 2 ;;
    rolling <- append_pairs parts2 rolling ;;
    if existsb (Z.eqb 3) rolling then Raise illegal_ternary
    else
      parts0 <- getitem parts 0 ;;
      parts1 <- getitem parts 1 ;;
      let fixed := firstn 10 parts0 ++ firstn 10 parts1 in
      if packet_type =? 0 then Ok (rolling, fixed, None)
      else
        (* packet_type == 1 *)
        if negb (list_eqb (firstn 4 rolling) (last_k rolling 4)) then
          Raise (ValueError "Last four ternary bits do not repeat first four")
        else
          let rolling := drop_last_k rolling 4 in
          let data := skipn 10 parts0 ++ skipn 10 parts1 in
          Ok (rolling, fixed, Some data).

Definition _decode_v2_half (code : list Z) : result half :=
  c0 <- getitem code 0 ;;
  c1 <- getitem code 1 ;;
  let packet_type := Z.lor (Z.shiftl c0 1) c1 in
  let indicator := slice code 2 10 in
  let payload := skipn 10 code in
  _decode_v2_half_parts packet_type indicator payload.

(** [str(n)] for an integer [n] (one short enough for the interpreter's
    limit on decimal conversions, as every bit is). *)
Definition py_str (n : Z) : str :=
  list_ascii_of_string (NilZero.string_of_int (Z.to_int n)).

(** [int("".join(str(bit) for bit in bits), 2)] *)
Definition int_of_bits (bits : list Z) : result Z :=
  int_base2 (concat (map py_str bits)).

Definition decode_v2 (code : list Z) : result (Z * Z * option Z) :=
  let half_len := (length code / 2)%nat in
  '(rolling1, fixed1, data1) <- _decode_v2_half (firstn half_len code) ;;
  '(rolling2, fixed2, data2) <- _decode_v2_half (skipn half_len code) ;;
  rolling <- _decode_v2_rolling rolling1 rolling2 ;;
  fixed <- int_of_bits (fixed1 ++ fixed2) ;;
  match data1, data2 with
  | None, _ => Ok (rolling, fixed, None)
  | Some data1, Some data2 =>
      data <- int_of_bits (data1 ++ data2) ;;
      Ok (rolling, fixed, Some data)
  | Some _, None => Raise TypeError
  end.

(** ** Security+ 2.0: the wireline frame *)

(** The values [decode_wireline] may be called with: a [bytes] object or
    anything else. *)
Inductive pyobj : Type :=
| PyBytes (b : list byte)
| PyBytearray (b : list byte)
| PyList (l : list Z)
| PyStr (s : str)
| PyInt (n : Z)
| PyNone.

Definition is_bytes (v : pyobj) : option (list byte) :=
  match v with
  | PyBytes b => Some b
  | _ => None
  end.

Definition int_of_byte (b : byte) : Z := Z.of_N (Byte.to_N b).

Fixpoint bytes_eqb (l1 l2 : list byte) : bool :=
  match l1, l2 with
  | [], [] => true
  | x :: l1', y :: l2' => Byte.eqb x y && bytes_eqb l1' l2'
  | _, _ => false
  end.

Definition _decode_wireline_half (code : list Z) : result half :=
  if negb (list_eqb (slice code 8 10) [0; 0]) then
    Raise (ValueError "Unexpected values for bits 8 and 9")
  else
    let indicator := firstn 8 code in
    let payload := skipn 10 code in
    _decode_v2_half_parts 1 indicator payload.

Definition byte_bits (b : byte) : list Z :=
  map (fun bit => Z.land (Z.shiftr (int_of_byte b) (Z.of_nat bit)) 1)
      (range_down 8).

Definition decode_wireline (code : pyobj) : result (Z * Z * Z) :=
  match is_bytes code with
  | None => Raise (ValueError "Input must be bytes")
  | Some code =>
      if negb (length code =? 19)%nat then
        Raise (ValueError "Input must be 19 bytes long")
      else if negb (bytes_eqb (firstn 3 code) [x55; x01; x00]%byte) then
        Raise (ValueError "First three bytes must be 0x55, 0x01, 0x00")
      else
        let code_bits := flat_map byte_bits (skipn 3 code) in
        '(rolling1, fixed1, data1) <-
          _decode_wireline_half (firstn 64 code_bits) ;;
        '(rolling2, fixed2, data2) <-
          _decode_wireline_half (skipn 64 code_bits) ;;
        rolling <- _decode_v2_rolling rolling1 rolling2 ;;
        fixed <- int_of_bits (fixed1 ++ fixed2) ;;
        match data1, data2 with
        | Some data1, Some data2 =>
            data <- int_of_bits (data1 ++ data2) ;;
            Ok (rolling, fixed, data)
        | _, _ => Raise TypeError
        end
  end.

(** ** Security+ 2.0: encoding *)

(** [for digit in digits: bits.append(digit >> 1); bits.append(digit & 1)] *)
Definition digit_bits (digits : list Z) : list Z :=
  flat_map (fun digit => [Z.shiftr digit 1; Z.land digit 1]) digits.

Definition _encode_v2_half_parts (rolling fixed : list Z)
  (data : option (list Z)) : result (Z * list Z * list Z) :=
  let indicator := digit_bits (firstn 4 rolling) in
  let parts0 := firstn 10 fixed in
  let parts1 := skipn 10 fixed in
  let parts2 := digit_bits (skipn 4 rolling) in
  let '(packet_type, parts) :=
    match data with
    | None => (0, [parts0; parts1; parts2])
    | Some data =>
        (1, [parts0 ++ firstn 8 data; parts1 ++ skipn 8 data;
             parts2 ++ digit_bits (firstn 4 rolling)])
    end in
  payload <- _v2_scramble indicator parts ;;
  Ok (packet_type, indicator, payload).

Definition _encode_v2_half (rolling fixed : list Z) (data : option (list Z))
  : result (list Z) :=
  '(packet_type, indicator, payload) <-
    _encode_v2_half_parts rolling fixed data ;;
  let packet_type_bits := [Z.shiftr packet_type 1; Z.land packet_type 1] in
  Ok (packet_type_bits ++ indicator ++ payload).

Definition _v2_check_limits (rolling fixed : Z) (data : option Z)
  : result unit :=
  if rolling >=? 2 ^ 28 then
    Raise (ValueError "Rolling code must be less than 2^28")
  else if fixed >=? 2 ^ 40 then
    Raise (ValueError "Fixed code must be less than 2^40")
  else
    match data with
    | Some data =>
        if data >=? 2 ^ 32 then
          Raise (ValueError "Data must be less than 2^32")
        else Ok tt
    | None => Ok tt
    end.

(** [int(c)] for a character of a formatted binary numeral. *)
Definition int_of_char (c : ascii) : result Z :=
  match bin_digit c with
  | Some d => Ok d
  | None => Raise (ValueError "invalid literal for int() with base 10")
  end.

(** [[int(bit) for bit in f"{n:0{w}b}"]] *)
Definition int_bits (w : nat) (n : Z) : result (list Z) :=
  map_m int_of_char (format_b w n).

Definition encode_v2 (rolling fixed : Z) (data : option Z)
  : result (list Z) :=
  _ <- _v2_check_limits rolling fixed data ;;
  '(rolling1, rolling2) <- _encode_v2_rolling rolling ;;
  fixed_bits <- int_bits 40 fixed ;;
  let fixed1 := firstn 20 fixed_bits in
  let fixed2 := skipn 20 fixed_bits in
  '(data1, data2) <-
    match data with
    | None => Ok (None, None)
    | Some data =>
        data_bits <- int_bits 32 data ;;
        Ok (Some (firstn 16 data_bits), Some (skipn 16 data_bits))
    end ;;
  h1 <- _encode_v2_half rolling1 fixed1 data1 ;;
  h2 <- _encode_v2_half rolling2 fixed2 data2 ;;
  Ok (h1 ++ h2).

Definition _encode_wireline_half (rolling fixed data : list Z)
  : result (list Z) :=
  '(_, indicator, payload) <- _encode_v2_half_parts rolling fixed (Some data) ;;
  Ok (indicator ++ [0; 0] ++ payload).

(** [bytes(packet)] *)
Definition byte_of_int (n : Z) : result byte :=
  if (0 <=? n) && (n <? 256) then
    match Byte.of_N (Z.to_N n) with
    | Some b => Ok b
    | None => Raise (ValueError "bytes must be in range(0, 256)")
    end
  else Raise (ValueError "bytes must be in range(0, 256)").

Definition pack_byte_body (payload_bits : list Z) (n : nat) (byte : Z)
  (bit : nat) : result Z :=
  b <- getitem payload_bits (n * 8 + bit) ;;
  Ok (Z.lor byte (Z.shiftl b (Z.of_nat (7 - bit)))).

Definition pack_body (payload_bits : list Z) (packet : list Z) (n : nat)
  : result (list Z) :=
  byte <- for_each (seq 0 8) (pack_byte_body payload_bits n) 0 ;;
  Ok (packet ++ [byte]).

Definition encode_wireline (rolling fixed data : Z) : result (list byte) :=
  _ <- _v2_check_limits rolling fixed (Some data) ;;
  '(rolling1, rolling2) <- _encode_v2_rolling rolling ;;
  fixed_bits <- int_bits 40 fixed ;;
  let fixed1 := firstn 20 fixed_bits in
  let fixed2 := skipn 20 fixed_bits in
  data_bits <- int_bits 32 data ;;
  let data1 := firstn 16 data_bits in
  let data2 := skipn 16 data_bits in
  h1 <- _encode_wireline_half rolling1 fixed1 data1 ;;
  h2 <- _encode_wireline_half rolling2 fixed2 data2 ;;
  let payload_bits := h1 ++ h2 in
  packet <-
    for_each (seq 0 (length payload_bits / 8)) (pack_body payload_bits)
      [0x55; 0x01; 0x00] ;;
  map_m byte_of_int packet.

(** ** The Manchester framer *)

Definition _manchester (code : list Z) : list Z :=
  fold_left
    (fun output bit =>
       if bit =? 0 then output ++ [1; 0] else output ++ [0; 1])
    code [].

Definition preamble : list Z :=
  [0; 0; 0; 0; 0; 0; 0; 0; 0; 0; 0; 0; 0; 0; 0; 0; 1; 1; 1; 1].

Definition encode_v2_manchester (rolling fixed : Z) (data : option Z)
  : result (list Z) :=
  code <- encode_v2 rolling fixed data ;;
  let half_len := (length code / 2)%nat in
  let packet1 := preamble ++ [0; 0] ++ firstn half_len code in
  let packet2 := preamble ++ [0; 1] ++ skipn half_len code in
  let blank := repeat 0 33 in
  Ok (_manchester packet1 ++ blank ++ _manchester packet2 ++ blank).

(** ** Security+ (v1): the on-off keying stream *)

Definition _OOK : list (Z * list Z) :=
  [ (-1, [0; 0; 0; 0]); (0, [0; 0; 0; 1]); (1, [0; 0; 1; 1]);
    (2, [0; 1; 1; 1]) ].

(** [for symbol in code: ook_bits += _OOK[symbol]] *)
Definition ook_body (ook_bits : list Z) (symbol : Z) : result (list Z) :=
  pattern <- dict_get _OOK symbol ;;
  Ok (ook_bits ++ pattern).

Definition encode_ook (rolling fixed : Z) (fast : bool) : result (list Z) :=
  code <- encode rolling fixed ;;
  let blank := repeat (-1) (if fast then 10 else 29)%nat in
  let code :=
    [0] ++ slice code 0 20 ++ blank ++ [2] ++ slice code 20 40 ++ blank in
  for_each code ook_body [].

(** ** Structural counterparts of the loops, used in the proofs *)

Definition bit (b : Z) : Prop := b = 0 \/ b = 1.
Definition trit (d : Z) : Prop := d = 0 \/ d = 1 \/ d = 2.

Definition header : list byte := [x55; x01; x00]%byte.

(** The payload [_v2_scramble] builds from three parts of one length. *)
Fixpoint interleave3 (a b c : list Z) : list Z :=
  match a, b, c with
  | x :: a', y :: b', z :: c' => x :: y :: z :: interleave3 a' b' c'
  | _, _, _ => []
  end.

(** A part after the inversion step of the scrambler. *)
Definition invert_if (b : bool) (part : list Z) : list Z :=
  if b then invert_bits part else part.

(** The digits of [n] in base [b], most significant first, on [w] places,
    and the number a list of digits stands for. *)
Fixpoint digits (b : Z) (w : nat) (n : Z) : list Z :=
  match w with
  | O => []
  | S w' => digits b w' (n / b) ++ [n mod b]
  end.

Definition of_digits (b : Z) (l : list Z) : Z :=
  fold_left (fun acc d => b * acc + d) l 0.

Definition bit_char (d : Z) : ascii := if d =? 0 then "0" else "1".

(** The value of a [w]-bit number read backwards. *)
Definition reversed (w : nat) (n : Z) : Z := of_digits 2 (rev (digits 2 w n)).

(** The pairs [encode] emits for the digits of one packet, and what [decode]
    accumulates over them. *)
Fixpoint enc_pairs (acc : Z) (rs fs : list Z) : list Z :=
  match rs, fs with
  | r :: rs', f :: fs' =>
      r :: (acc + r + f) mod 3 :: enc_pairs (acc + r + f) rs' fs'
  | _, _ => []
  end.

Fixpoint dec_pairs (code : list Z) (st : decode_state) : decode_state :=
  match code with
  | r :: c :: code' =>
      let '(rolling, fixed, acc) := st in
      let d := (c - (acc + r)) mod 3 in
      dec_pairs code' (rolling * 3 + r, fixed * 3 + d, acc + r + d)
  | _ => st
  end.

Definition reset_acc (st : decode_state) : decode_state :=
  let '(rolling, fixed, _) := st in (rolling, fixed, 0).

(** The byte [encode_wireline] packs from eight bits, most significant
    first, and the bytes of [n] groups of eight bits. *)
Definition pack8 (bits : list Z) : Z :=
  fold_left
    (fun byte '(bit, b) => Z.lor byte (Z.shiftl b (Z.of_nat (7 - bit))))
    (combine (seq 0 8) bits) 0.

Fixpoint pack_all (n : nat) (bits : list Z) : list Z :=
  match n with
  | O => []
  | S n' => pack8 (firstn 8 bits) :: pack_all n' (skipn 8 bits)
  end.

(** The Manchester expansion as the specification words it: a bit 0 becomes
    1,0 and a bit 1 becomes 0,1; nothing else is a bit. *)
Definition manchester_symbol (b : Z) : option (list Z) :=
  if b =? 0 then Some [1; 0]
  else if b =? 1 then Some [0; 1]
  else None.

Fixpoint manchester_expansion (code : list Z) : option (list Z) :=
  match code with
  | [] => Some []
  | b :: code' =>
      match manchester_symbol b, manchester_expansion code' with
      | Some s, Some frame => Some (s ++ frame)
      | _, _ => None
      end
  end.

(** The ternary digits [append_pairs] reads off a list of bits. *)
Fixpoint bit_pairs (bits : list Z) : list Z :=
  match bits with
  | hi :: lo :: bits' => Z.lor (Z.shiftl hi 1) lo :: bit_pairs bits'
  | _ => []
  end.

(** The four-bit pattern of an on-off keying symbol. *)
Definition ook_pattern (symbol : Z) : list Z :=
  match dict_get _OOK symbol with
  | Ok pattern => pattern
  | Raise _ => []
  end.

(** The symbols of an on-off keying stream: a ternary digit or the blank. *)
Definition ook_symbol (s : Z) : Prop := -1 <= s <= 2.

(** A code of [encode_v2] and a frame of [encode_wireline], for examples. *)
Definition sample_code_v2 : list Z :=
  Eval vm_compute in
    match encode_v2 123456 78901234567 None with
    | Ok code => code
    | Raise _ => []
    end.

Definition sample_frame : list byte :=
  Eval vm_compute in
    match encode_wireline 123456 78901234567 4242424242 with
    | Ok code => code
    | Raise _ => []
    end.

(** * Properties *)

(** ** The error monad and sequences *)

Lemma for_each_ext {I S : Type} (xs : list I) (f g : S -> I -> result S) :
  (forall x, In x xs -> forall st, f st x = g st x) ->
  forall st, for_each xs f st = for_each xs g st.
Proof.
  induction xs as [|x xs IH]; intros Hfg st; [reflexivity|].
  simpl. rewrite (Hfg x (or_introl eq_refl)).
  destruct (g st x); simpl; [|reflexivity].
  apply IH. intros y Hy. apply Hfg. now right.
Qed.

Lemma getitem_firstn {A : Type} (l : list A) (n i : nat) :
  (i < n)%nat -> getitem (firstn n l) i = getitem l i.
Proof.
  intros Hi. unfold getitem. now rewrite nth_error_firstn, (proj2 (Nat.ltb_lt i n)).
Qed.

Lemma bytes_eqb_eq (l1 l2 : list byte) : bytes_eqb l1 l2 = true <-> l1 = l2.
Proof.
  revert l2. induction l1 as [|x l1 IH]; intros [|y l2]; simpl;
    try (split; [discriminate | discriminate]); [tauto|].
  rewrite andb_true_iff, IH. split.
  - intros [Hxy ->]. now rewrite (Byte.byte_dec_bl _ _ Hxy).
  - intros [= -> ->]. split; [now apply Byte.byte_dec_lb | reflexivity].
Qed.

(** ** Security+ (v1): what [decode] accepts *)

Lemma decode_body_firstn (code : list Z) (st : decode_state) (i : nat) :
  (i + 1 < 40)%nat ->
  decode_body (firstn 40 code) st i = decode_body code st i.
Proof.
  intros Hi. unfold decode_body. destruct st as [[rolling fixed] acc].
  rewrite !getitem_firstn by lia. reflexivity.
Qed.

(** ** The scrambler *)

Lemma dict_get_In {V : Type} (d : list (Z * V)) (k : Z) (v : V) :
  dict_get d k = Ok v -> In v (map snd d).
Proof.
  induction d as [|[k' v'] d IH]; simpl; [discriminate|].
  destruct (k =? k'); [intros [= ->]; now left | right; auto].
Qed.

Lemma bind_Ok {A B : Type} (m : result A) (k : A -> result B) (b : B) :
  bind m k = Ok b -> exists a, m = Ok a /\ k a = Ok b.
Proof. destruct m; simpl; [eauto | discriminate]. Qed.

Lemma lookup_tables_In (indicator : list Z) order invert :
  lookup_tables indicator = Ok (order, invert) ->
  In order (map snd _ORDER) /\ In invert (map snd _INVERT).
Proof.
  unfold lookup_tables. intros H.
  apply bind_Ok in H as (k1 & _ & H).
  apply bind_Ok in H as (o & Ho & H).
  apply bind_Ok in H as (k2 & _ & H).
  apply bind_Ok in H as (i & Hi & H).
  injection H as <- <-.
  split; eapply dict_get_In; eassumption.
Qed.

Lemma invert_loop (b0 b1 b2 : bool) (q0 q1 q2 : list Z) :
  for_each (seq 0 3) (invert_body [b0; b1; b2]) [q0; q1; q2] =
  Ok [invert_if b0 q0; invert_if b1 q1; invert_if b2 q2].
Proof. destruct b0, b1, b2; reflexivity. Qed.

Lemma invert_bits_involutive (p : list Z) : invert_bits (invert_bits p) = p.
Proof.
  unfold invert_bits. rewrite map_map. rewrite <- (map_id p) at 2.
  apply map_ext. intros b. rewrite Z.lxor_assoc. change (Z.lxor 1 1) with 0.
  apply Z.lxor_0_r.
Qed.

Lemma invert_if_involutive b p : invert_if b (invert_if b p) = p.
Proof. destruct b; [apply invert_bits_involutive | reflexivity]. Qed.

Lemma invert_if_length b p : length (invert_if b p) = length p.
Proof. destruct b; [apply length_map | reflexivity]. Qed.

Lemma getitem_skipn {A : Type} (l : list A) (k : nat) :
  (k < length l)%nat ->
  exists x, getitem l k = Ok x /\ skipn k l = x :: skipn (S k) l.
Proof.
  revert k. induction l as [|a l IH]; intros k Hk; simpl in Hk; [lia|].
  destruct k as [|k]; [now exists a|].
  destruct (IH k) as (x & Hx & Hs); [lia|]. exists x. split; assumption.
Qed.

Lemma interleave_loop_from (q0 q1 q2 : list Z) :
  length q1 = length q0 -> length q2 = length q0 ->
  forall n k acc, (k + n = length q0)%nat ->
  for_each (seq k n) (interleave_body [q0; q1; q2]) acc =
  Ok (acc ++ interleave3 (skipn k q0) (skipn k q1) (skipn k q2)).
Proof.
  intros H1 H2. induction n as [|n IH]; intros k acc Hk.
  - simpl. rewrite (skipn_all2 q0) by lia. now rewrite app_nil_r.
  - simpl. unfold interleave_body at 1. simpl.
    destruct (getitem_skipn q0 k) as (a & -> & ->); [lia|].
    destruct (getitem_skipn q1 k) as (b & -> & ->); [lia|].
    destruct (getitem_skipn q2 k) as (c & -> & ->); [lia|].
    simpl. rewrite IH by lia. now rewrite <- app_assoc.
Qed.

Lemma interleave_loop (q0 q1 q2 : list Z) :
  length q1 = length q0 -> length q2 = length q0 ->
  for_each (seq 0 (length q0)) (interleave_body [q0; q1; q2]) [] =
  Ok (interleave3 q0 q1 q2).
Proof.
  intros H1 H2. now rewrite (interleave_loop_from q0 q1 q2 H1 H2 _ 0%nat []).
Qed.

Lemma every_interleave3 (a : list Z) : forall b c,
  length b = length a -> length c = length a ->
  slice_step (interleave3 a b c) 0 3 = a /\
  slice_step (interleave3 a b c) 1 3 = b /\
  slice_step (interleave3 a b c) 2 3 = c.
Proof.
  unfold slice_step.
  induction a as [|x a IH]; intros [|y b] [|z c]; simpl; try discriminate; auto.
  intros [= Hb] [= Hc]. destruct (IH b c Hb Hc) as (-> & -> & ->). auto.
Qed.

Lemma interleave3_length (a : list Z) : forall b c,
  length b = length a -> length c = length a ->
  length (interleave3 a b c) = (3 * length a)%nat.
Proof.
  induction a as [|x a IH]; intros [|y b] [|z c]; simpl; try discriminate; auto.
  intros [= Hb] [= Hc]. rewrite (IH b c Hb Hc). lia.
Qed.

Lemma interleave3_every (n : nat) : forall payload,
  length payload = (3 * n)%nat ->
  interleave3 (slice_step payload 0 3) (slice_step payload 1 3)
    (slice_step payload 2 3) = payload /\
  length (slice_step payload 0 3) = n /\
  length (slice_step payload 1 3) = n /\
  length (slice_step payload 2 3) = n.
Proof.
  unfold slice_step.
  induction n as [|n IH]; intros payload Hlen.
  - destruct payload; [simpl; auto | discriminate].
  - destruct payload as [|a [|b [|c payload]]]; simpl in Hlen; try lia.
    destruct (IH payload) as (H & H0 & H1 & H2); [lia|].
    simpl. rewrite H, H0, H1, H2. auto.
Qed.

Lemma invert_if_bits (b : bool) (p : list Z) :
  Forall bit p -> Forall bit (invert_if b p).
Proof.
  destruct b; [|trivial]. unfold invert_if, invert_bits, bit.
  induction 1 as [|d p [-> | ->] _ IH]; simpl; auto.
Qed.

Lemma interleave3_bits (a : list Z) : forall b c,
  Forall bit a -> Forall bit b -> Forall bit c ->
  Forall bit (interleave3 a b c).
Proof.
  induction a as [|x a IH]; intros [|y b] [|z c] Ha Hb Hc; simpl;
    try apply Forall_nil.
  inversion_clear Ha. inversion_clear Hb. inversion_clear Hc.
  repeat (constructor; [assumption|]). now apply IH.
Qed.

Lemma scramble_unscramble (indicator : list Z) order invert (p0 p1 p2 : list Z) :
  lookup_tables indicator = Ok (order, invert) ->
  length p1 = length p0 -> length p2 = length p0 ->
  exists payload,
    _v2_scramble indicator [p0; p1; p2] = Ok payload /\
    _v2_unscramble indicator payload = Ok [p0; p1; p2] /\
    length payload = (3 * length p0)%nat /\
    (Forall bit p0 -> Forall bit p1 -> Forall bit p2 -> Forall bit payload).
Proof.
  intros Hl H1 H2. unfold _v2_scramble, _v2_unscramble. rewrite Hl.
  apply lookup_tables_In in Hl as [Ho Hi].
  assert (exists b0 b1 b2, invert = [b0; b1; b2]) as (b0 & b1 & b2 & ->).
  { simpl in Hi. repeat (destruct Hi as [<-|Hi]; [eauto|]). contradiction. }
  clear Hi. simpl in Ho.
  repeat (destruct Ho as [<-|Ho]);
    try contradiction;
    cbn [bind map_m seq getitem nth_error];
    rewrite invert_loop; cbn [bind getitem nth_error];
    (match goal with
     | |- context [interleave_body [?a; ?b; ?c]] =>
         rewrite (interleave_loop a b c) by (rewrite !invert_if_length; congruence);
         destruct (every_interleave3 a b c) as (E0 & E1 & E2);
           [rewrite !invert_if_length; congruence ..|];
         eexists; split; [reflexivity|];
         rewrite E0, E1, E2, invert_loop, !invert_if_involutive;
         split; [reflexivity|];
         split;
         [rewrite interleave3_length by (rewrite !invert_if_length; congruence);
          rewrite !invert_if_length; congruence
         |intros B0 B1 B2; apply interleave3_bits; now apply invert_if_bits]
     end).
Qed.

Lemma unscramble_scramble (indicator : list Z) order invert (n : nat)
  (payload : list Z) :
  lookup_tables indicator = Ok (order, invert) ->
  length payload = (3 * n)%nat ->
  exists p0 p1 p2,
    _v2_unscramble indicator payload = Ok [p0; p1; p2] /\
    _v2_scramble indicator [p0; p1; p2] = Ok payload /\
    length p0 = n /\ length p1 = n /\ length p2 = n.
Proof.
  intros Hl Hn. unfold _v2_scramble, _v2_unscramble. rewrite Hl.
  apply lookup_tables_In in Hl as [Ho Hi].
  assert (exists b0 b1 b2, invert = [b0; b1; b2]) as (b0 & b1 & b2 & ->).
  { simpl in Hi. repeat (destruct Hi as [<-|Hi]; [eauto|]). contradiction. }
  clear Hi. simpl in Ho.
  destruct (interleave3_every n payload Hn) as (E & L0 & L1 & L2).
  repeat (destruct Ho as [<-|Ho]);
    try contradiction;
    cbn [bind]; do 3 eexists;
    (split;
     [rewrite invert_loop;
      cbn [bind for_each seq place_body getitem nth_error setitem];
      reflexivity|]);
    cbn [bind map_m seq getitem nth_error];
    rewrite invert_loop, !invert_if_involutive; cbn [bind getitem nth_error];
    rewrite interleave_loop by congruence;
    rewrite !invert_if_length, E; auto.
Qed.

(** C3: for an indicator whose two selectors are keys of the tables,
    scrambling and unscrambling are inverse to each other: on three parts
    of one length (10, 10, 10 for packet type 0 and 18, 18, 18 for packet
    type 1 among them) [_v2_unscramble] returns the parts [_v2_scramble]
    was given, and on a payload whose length is a multiple of 3
    [_v2_scramble] returns the payload [_v2_unscramble] was given. *)
Theorem scramble_bijection (indicator : list Z) order invert :
  lookup_tables indicator = Ok (order, invert) ->
  (forall p0 p1 p2 : list Z,
      length p1 = length p0 -> length p2 = length p0 ->
      exists payload,
        _v2_scramble indicator [p0; p1; p2] = Ok payload /\
        _v2_unscramble indicator payload = Ok [p0; p1; p2]) /\
  (forall payload : list Z,
      (length payload mod 3 = 0)%nat ->
      exists parts,
        _v2_unscramble indicator payload = Ok parts /\
        _v2_scramble indicator parts = Ok payload).
Proof.
  intros Hl. split.
  - intros p0 p1 p2 H1 H2.
    destruct (scramble_unscramble indicator order invert p0 p1 p2 Hl H1 H2)
      as (payload & Hs & Hu & _ & _).
    now exists payload.
  - intros payload Hm.
    destruct (unscramble_scramble indicator order invert
                (length payload / 3) payload Hl)
      as (p0 & p1 & p2 & Hu & Hs & _).
    + pose proof (Nat.div_mod_eq (length payload) 3). lia.
    + now exists [p0; p1; p2].
Qed.

Lemma scramble_bijection_witness :
  lookup_tables [0; 1; 1; 0; 1; 0; 0; 1]
    = Ok ([2; 1; 0]%nat, [false; false; false]) /\
  _v2_scramble [0; 1; 1; 0; 1; 0; 0; 1] [[1; 0]; [0; 0]; [1; 1]]
    = Ok [1; 0; 1; 1; 0; 0] /\
  _v2_unscramble [0; 1; 1; 0; 1; 0; 0; 1] [1; 0; 1; 1; 0; 0]
    = Ok [[1; 0]; [0; 0]; [1; 1]].
Proof.
  split; [reflexivity|].
  destruct (scramble_bijection [0; 1; 1; 0; 1; 0; 0; 1] [2; 1; 0]%nat
              [false; false; false] eq_refl) as [H _].
  destruct (H [1; 0] [0; 0] [1; 1] eq_refl eq_refl) as (payload & Hs & Hu).
  vm_compute in Hs. injection Hs as <-. split; [reflexivity | exact Hu].
Defined.

(** ** Digits *)

Lemma of_digits_snoc (b : Z) (l : list Z) (d : Z) :
  of_digits b (l ++ [d]) = b * of_digits b l + d.
Proof. unfold of_digits. now rewrite fold_left_app. Qed.

Lemma digits_length (b : Z) (w : nat) : forall n, length (digits b w n) = w.
Proof.
  induction w as [|w IH]; intros n; simpl; [reflexivity|].
  rewrite length_app, IH. simpl. lia.
Qed.

Lemma digits_range (b : Z) (w : nat) : 0 < b ->
  forall n, Forall (fun d => 0 <= d < b) (digits b w n).
Proof.
  intros Hb. induction w as [|w IH]; intros n; simpl; [constructor|].
  apply Forall_app. split; [apply IH|].
  constructor; [apply Z.mod_pos_bound; lia | constructor].
Qed.

Lemma of_digits_digits (b : Z) (w : nat) : 0 < b ->
  forall n, 0 <= n < b ^ Z.of_nat w -> of_digits b (digits b w n) = n.
Proof.
  intros Hb. induction w as [|w IH]; intros n Hn.
  - simpl in *. unfold of_digits. simpl. lia.
  - simpl digits. rewrite of_digits_snoc, IH.
    + pose proof (Z.div_mod n b). lia.
    + rewrite Nat2Z.inj_succ, Z.pow_succ_r in Hn by lia.
      split; [apply Z.div_pos; lia|].
      apply Z.div_lt_upper_bound; lia.
Qed.

Lemma of_digits_range (b : Z) (l : list Z) : 0 < b ->
  Forall (fun d => 0 <= d < b) l ->
  0 <= of_digits b l < b ^ Z.of_nat (length l).
Proof.
  intros Hb. induction l as [|d l IH] using rev_ind; intros Hl.
  - unfold of_digits. simpl. lia.
  - apply Forall_app in Hl as [Hl Hd]. inversion_clear Hd as [|? ? Hd' _].
    specialize (IH Hl).
    rewrite of_digits_snoc, length_app, Nat.add_1_r, Nat2Z.inj_succ,
      Z.pow_succ_r by lia.
    nia.
Qed.

Lemma digits_of_digits (b : Z) (l : list Z) : 0 < b ->
  Forall (fun d => 0 <= d < b) l ->
  digits b (length l) (of_digits b l) = l.
Proof.
  intros Hb. induction l as [|d l IH] using rev_ind; intros Hl; [reflexivity|].
  apply Forall_app in Hl as [Hl Hd]. inversion_clear Hd as [|? ? Hd' _].
  rewrite of_digits_snoc, length_app, Nat.add_1_r. simpl digits.
  replace ((b * of_digits b l + d) / b) with (of_digits b l)
    by (apply Z.div_unique with d; lia).
  replace ((b * of_digits b l + d) mod b) with d
    by (apply Z.mod_unique with (of_digits b l); lia).
  now rewrite IH.
Qed.

Lemma digits_zero (b : Z) (w : nat) : 0 < b -> digits b w 0 = repeat 0 w.
Proof.
  intros Hb. induction w as [|w IH]; [reflexivity|].
  simpl digits. rewrite Z.div_0_l, Z.mod_0_l, IH by lia.
  symmetry. apply repeat_cons.
Qed.

(** ** Binary numerals *)

Lemma bit_range (d : Z) : 0 <= d < 2 <-> bit d.
Proof. unfold bit. lia. Qed.

Lemma trit_range (d : Z) : 0 <= d < 3 <-> trit d.
Proof. unfold trit. lia. Qed.

Lemma digits2_bits (w : nat) (n : Z) : Forall bit (digits 2 w n).
Proof.
  eapply Forall_impl; [|apply digits_range; lia]. intros d. apply bit_range.
Qed.

Lemma digits3_trits (w : nat) (n : Z) : Forall trit (digits 3 w n).
Proof.
  eapply Forall_impl; [|apply digits_range; lia]. intros d. apply trit_range.
Qed.

Lemma zfill_snoc (w : nat) (s : str) (c : ascii) :
  zfill (S w) (s ++ [c]) = zfill w s ++ [c].
Proof.
  unfold zfill. rewrite length_app. simpl length.
  replace (S w - (length s + 1))%nat with (w - length s)%nat by lia.
  now rewrite app_assoc.
Qed.

Lemma bit_char_zeros (w : nat) :
  map bit_char (repeat 0 w) = repeat "0"%char w.
Proof. induction w as [|w IH]; simpl; [reflexivity | now rewrite IH]. Qed.

Lemma format_pos (p : positive) : forall w : nat,
  Z.pos p < 2 ^ Z.of_nat w ->
  zfill w (pos_bin p) = map bit_char (digits 2 w (Z.pos p)).
Proof.
  induction p as [q IH | q IH |]; intros [|w] Hp;
    try (simpl in Hp; lia);
    rewrite Nat2Z.inj_succ, Z.pow_succ_r in Hp by lia.
  - simpl pos_bin. simpl digits. rewrite zfill_snoc, map_app.
    replace (Z.pos q~1 / 2) with (Z.pos q)
      by (apply Z.div_unique with 1; lia).
    replace (Z.pos q~1 mod 2) with 1
      by (apply Z.mod_unique with (Z.pos q); lia).
    rewrite IH by lia. reflexivity.
  - simpl pos_bin. simpl digits. rewrite zfill_snoc, map_app.
    replace (Z.pos q~0 / 2) with (Z.pos q)
      by (apply Z.div_unique with 0; lia).
    replace (Z.pos q~0 mod 2) with 0
      by (apply Z.mod_unique with (Z.pos q); lia).
    rewrite IH by lia. reflexivity.
  - simpl pos_bin. simpl digits. change [ "1"%char ] with ([] ++ [ "1"%char ]).
    rewrite zfill_snoc, map_app. change (1 / 2) with 0.
    rewrite digits_zero, bit_char_zeros by lia.
    unfold zfill. simpl. now rewrite Nat.sub_0_r, app_nil_r.
Qed.

Lemma format_b_digits (w : nat) (n : Z) :
  (1 <= w)%nat -> 0 <= n < 2 ^ Z.of_nat w ->
  format_b w n = map bit_char (digits 2 w n).
Proof.
  intros Hw Hn. destruct n as [|p|p]; [| |lia].
  - destruct w as [|w]; [lia|]. simpl format_b.
    change [ "0"%char ] with ([] ++ [ "0"%char ]). rewrite zfill_snoc.
    rewrite digits_zero, bit_char_zeros by lia.
    unfold zfill. simpl. rewrite Nat.sub_0_r, app_nil_r. symmetry. apply repeat_cons.
  - apply format_pos. lia.
Qed.

Lemma parse_bin_bits (l : list Z) : Forall bit l -> forall acc,
  parse_bin (map bit_char l) acc =
  Some (fold_left (fun acc d => 2 * acc + d) l acc).
Proof.
  induction 1 as [|d l [-> | ->] _ IH]; intros acc; simpl; auto.
Qed.

Lemma int_base2_bits (l : list Z) :
  Forall bit l -> l <> [] -> int_base2 (map bit_char l) = Ok (of_digits 2 l).
Proof.
  intros Hl Hne. destruct l as [|d l]; [contradiction|].
  unfold int_base2. cbn [map].
  replace (Ascii.eqb (bit_char d) "-") with false
    by (inversion_clear Hl as [|? ? [-> | ->] _]; reflexivity).
  change (bit_char d :: map bit_char l) with (map bit_char (d :: l)).
  rewrite parse_bin_bits by assumption. reflexivity.
Qed.

Lemma reverse_bits_reversed (w : nat) (n : Z) :
  (1 <= w)%nat -> 0 <= n < 2 ^ Z.of_nat w ->
  reverse_bits w n = Ok (reversed w n).
Proof.
  intros Hw Hn. unfold reverse_bits, reversed.
  rewrite format_b_digits, <- map_rev by assumption.
  apply int_base2_bits.
  - apply Forall_rev, digits2_bits.
  - intros E. apply (f_equal (@length Z)) in E.
    rewrite length_rev, digits_length in E. simpl in E. lia.
Qed.

Lemma reversed_range (w : nat) (n : Z) : 0 <= reversed w n < 2 ^ Z.of_nat w.
Proof.
  unfold reversed.
  pose proof (of_digits_range 2 (rev (digits 2 w n))) as H.
  rewrite length_rev, digits_length in H. apply H; [lia|].
  apply Forall_rev, digits_range. lia.
Qed.

Lemma reversed_involutive (w : nat) (n : Z) :
  0 <= n < 2 ^ Z.of_nat w -> reversed w (reversed w n) = n.
Proof.
  intros Hn. unfold reversed at 1.
  replace (digits 2 w (reversed w n)) with (rev (digits 2 w n)).
  - rewrite rev_involutive. apply of_digits_digits; lia.
  - unfold reversed.
    pose proof (digits_of_digits 2 (rev (digits 2 w n))) as H.
    rewrite length_rev, digits_length in H. symmetry. apply H; [lia|].
    apply Forall_rev, digits_range. lia.
Qed.

Lemma reversed_even (w : nat) (n : Z) :
  n mod 2 = 0 -> 0 <= reversed (S w) n < 2 ^ Z.of_nat w.
Proof.
  intros Hn. unfold reversed. simpl digits. rewrite Hn, rev_app_distr.
  simpl rev. simpl app.
  replace (of_digits 2 (0 :: rev (digits 2 w (n / 2))))
    with (of_digits 2 (rev (digits 2 w (n / 2)))) by reflexivity.
  apply reversed_range.
Qed.

(** ** Security+ (v1): round trip *)

Lemma encode_base3_loop (rolling fixed : Z) :
  exists r f,
    for_each (range_down 20) encode_base3_body
      (repeat 0 20, repeat 0 20, rolling, fixed)
    = Ok (digits 3 20 rolling, digits 3 20 fixed, r, f).
Proof. do 2 eexists. reflexivity. Qed.

Lemma encode_code_loop (rs fs : list Z) :
  length rs = 20%nat -> length fs = 20%nat ->
  exists acc,
    for_each (seq 0 20) (encode_code_body rs fs) ([], 0)
    = Ok (enc_pairs 0 (firstn 10 rs) (firstn 10 fs)
            ++ enc_pairs 0 (skipn 10 rs) (skipn 10 fs), acc).
Proof.
  intros Hr Hf.
  do 20 (destruct rs as [|? rs]; [discriminate Hr|]).
  destruct rs; [|discriminate Hr].
  do 20 (destruct fs as [|? fs]; [discriminate Hf|]).
  destruct fs; [|discriminate Hf].
  eexists. reflexivity.
Qed.

Lemma decode_loop (code : list Z) :
  length code = 40%nat ->
  for_each (range 0 40 2) (decode_body code) (0, 0, 0)
  = Ok (dec_pairs (skipn 20 code)
          (reset_acc (dec_pairs (firstn 20 code) (0, 0, 0)))).
Proof.
  intros Hc.
  do 40 (destruct code as [|? code]; [discriminate Hc|]).
  destruct code; [|discriminate Hc].
  reflexivity.
Qed.

Lemma enc_pairs_length (rs : list Z) : forall fs acc,
  length fs = length rs ->
  length (enc_pairs acc rs fs) = (2 * length rs)%nat.
Proof.
  induction rs as [|r rs IH]; intros [|f fs] acc; simpl; try discriminate;
    [reflexivity|].
  intros [= H]. rewrite IH by assumption. lia.
Qed.

Lemma dec_enc_pairs (rs : list Z) : forall fs acc rolling fixed,
  length fs = length rs -> Forall trit fs ->
  exists acc',
    dec_pairs (enc_pairs acc rs fs) (rolling, fixed, acc) =
    (fold_left (fun a d => a * 3 + d) rs rolling,
     fold_left (fun a d => a * 3 + d) fs fixed, acc').
Proof.
  induction rs as [|r rs IH]; intros [|f fs] acc rolling fixed; simpl;
    try discriminate; [eauto|].
  intros [= H] Hf. inversion_clear Hf as [|? ? Hf0 Hfs].
  replace (((acc + r + f) mod 3 - (acc + r)) mod 3) with f.
  - apply IH; assumption.
  - rewrite Zminus_mod_idemp_l.
    replace (acc + r + f - (acc + r)) with f by ring.
    symmetry. apply Z.mod_small. now apply trit_range.
Qed.

Lemma fold_base3 (l : list Z) : forall x y,
  fold_left (fun a d => a * 3 + d) l x = y <->
  fold_left (fun a d => 3 * a + d) l x = y.
Proof.
  induction l as [|d l IH]; intros x y; simpl; [tauto|].
  now rewrite (Z.mul_comm x 3).
Qed.

Lemma land_mask_range (rolling : Z) :
  0 <= Z.land rolling 0xfffffffe < 2 ^ 32 /\
  Z.land rolling 0xfffffffe mod 2 = 0.
Proof.
  split.
  - replace (Z.land rolling 0xfffffffe)
      with (Z.land rolling 0xfffffffe mod 2 ^ 32).
    + apply Z.mod_pos_bound. lia.
    + rewrite <- Z.land_ones, <- Z.land_assoc by lia. reflexivity.
  - change 2 with (2 ^ 1) at 1.
    rewrite <- Z.land_ones, <- Z.land_assoc by lia. apply Z.land_0_r.
Qed.

Lemma Forall_firstn_skipn {A : Type} (P : A -> Prop) (n : nat) (l : list A) :
  Forall P l -> Forall P (firstn n l) /\ Forall P (skipn n l).
Proof. intros H. apply Forall_app. now rewrite firstn_skipn. Qed.

Lemma geb_false (n m : Z) : n < m -> (n >=? m) = false.
Proof. intros H. rewrite Z.geb_leb. apply Z.leb_gt. exact H. Qed.

Lemma decode_enc_pairs (rs fs : list Z) :
  length rs = 20%nat -> length fs = 20%nat -> Forall trit fs ->
  decode (enc_pairs 0 (firstn 10 rs) (firstn 10 fs)
            ++ enc_pairs 0 (skipn 10 rs) (skipn 10 fs))
  = (rolling <- reverse_bits 32 (of_digits 3 rs) ;;
     Ok (rolling, of_digits 3 fs)).
Proof.
  intros Hrs Hfs Ht.
  remember (enc_pairs 0 (firstn 10 rs) (firstn 10 fs)) as h1 eqn:Eh1.
  remember (enc_pairs 0 (skipn 10 rs) (skipn 10 fs)) as h2 eqn:Eh2.
  assert (H1 : length h1 = 20%nat).
  { subst h1. rewrite enc_pairs_length; rewrite !length_firstn; lia. }
  assert (H2 : length h2 = 20%nat).
  { subst h2. rewrite enc_pairs_length; rewrite !length_skipn; lia. }
  unfold decode. rewrite decode_loop by (rewrite length_app; lia).
  rewrite firstn_app, skipn_app, H1, Nat.sub_diag, firstn_all2, skipn_all2
    by lia.
  rewrite firstn_O, skipn_O, app_nil_r. change ([] ++ h2) with h2.
  destruct (Forall_firstn_skipn trit 10 fs Ht) as [Ht1 Ht2].
  destruct (dec_enc_pairs (firstn 10 rs) (firstn 10 fs) 0 0 0) as (a1 & E1);
    [rewrite !length_firstn; lia | assumption |].
  rewrite <- Eh1 in E1. rewrite E1. unfold reset_acc.
  destruct (dec_enc_pairs (skipn 10 rs) (skipn 10 fs) 0
              (fold_left (fun a d => a * 3 + d) (firstn 10 rs) 0)
              (fold_left (fun a d => a * 3 + d) (firstn 10 fs) 0))
    as (a2 & E2); [rewrite !length_skipn; lia | assumption |].
  rewrite <- Eh2 in E2. rewrite E2. cbn [bind].
  rewrite <- !fold_left_app, !firstn_skipn.
  rewrite (proj2 (fold_base3 rs 0 (of_digits 3 rs)) eq_refl).
  rewrite (proj2 (fold_base3 fs 0 (of_digits 3 fs)) eq_refl).
  reflexivity.
Qed.

(** C2: for a rolling code below 2^32 and a fixed code below 3^20, [encode]
    returns a code on which [decode] returns the fixed code and the rolling
    code with bit 0 cleared. *)
Theorem v1_round_trip (rolling fixed : Z) :
  rolling < 2 ^ 32 -> 0 <= fixed < 3 ^ 20 ->
  exists code,
    encode rolling fixed = Ok code /\
    decode code = Ok (Z.land rolling 0xFFFFFFFE, fixed).
Proof.
  intros Hr Hf. unfold encode.
  rewrite (geb_false rolling), (geb_false fixed) by lia.
  destruct (land_mask_range rolling) as [Hm He].
  remember (Z.land rolling 0xfffffffe) as masked eqn:Em.
  rewrite (reverse_bits_reversed 32 masked) by (change (Z.of_nat 32) with 32; lia).
  cbn [bind].
  pose proof (reversed_even 31 masked He) as Hx.
  change (Z.of_nat 31) with 31 in Hx.
  pose proof (reversed_involutive 32 masked Hm) as Hi.
  remember (reversed 32 masked) as x eqn:Ex.
  destruct (encode_base3_loop x fixed) as (r' & f' & ->). cbn [bind].
  pose proof (digits_length 3 20 x) as Hrs.
  pose proof (digits_length 3 20 fixed) as Hfs.
  pose proof (digits3_trits 20 fixed) as Ht.
  pose proof (of_digits_digits 3 20 eq_refl x) as Ox.
  pose proof (of_digits_digits 3 20 eq_refl fixed) as Of.
  change (Z.of_nat 20) with 20 in Ox, Of.
  remember (digits 3 20 x) as rs eqn:Ers.
  remember (digits 3 20 fixed) as fs eqn:Efs.
  destruct (encode_code_loop rs fs Hrs Hfs) as (acc & ->). cbn [bind].
  eexists. split; [reflexivity|].
  rewrite decode_enc_pairs by assumption.
  rewrite Ox, Of by lia.
  rewrite (reverse_bits_reversed 32 x) by (change (Z.of_nat 32) with 32; lia).
  cbn [bind]. now rewrite Hi.
Qed.

Lemma v1_round_trip_witness :
  123456789 < 2 ^ 32 /\ 0 <= 1000 < 3 ^ 20 /\
  exists code,
    encode 123456789 1000 = Ok code /\
    decode code = Ok (Z.land 123456789 0xFFFFFFFE, 1000).
Proof.
  split; [lia|]. split; [lia|].
  apply (v1_round_trip 123456789 1000); lia.
Defined.

(** C5 as the specification states it does not hold: the rolling code that
    comes back is not 123456784. *)
Lemma golden_vector_not_784 :
  (code <- encode 123456789 1000 ;; decode code) <> Ok (123456784, 1000).
Proof. vm_compute. discriminate. Qed.

(** C5, amended: [encode(123456789, 1000)] followed by [decode] returns
    [(123456788, 1000)], the rolling code with its low bit cleared. *)
Theorem golden_vector :
  (code <- encode 123456789 1000 ;; decode code) = Ok (123456788, 1000).
Proof. vm_compute. reflexivity. Qed.

(** ** Security+ (v1): inputs [decode] rejects *)

(** C4 as the specification states it does not hold: a list of 41 entries
    and a list of 40 entries with a 3 among them are both decoded. *)
Lemma decode_accepts_bad_input :
  length (repeat 0 41) <> 40%nat /\
  decode (repeat 0 41) = Ok (0, 0) /\
  length (3 :: repeat 0 39) = 40%nat /\
  In 3 (3 :: repeat 0 39) /\
  decode (3 :: repeat 0 39) = Ok (2312645619, 0).
Proof.
  split; [simpl; discriminate|]. split; [vm_compute; reflexivity|].
  split; [reflexivity|]. split; [now left | vm_compute; reflexivity].
Qed.

(** A list of fewer than 40 entries: the first missing entry stops
    [decode]. *)
Lemma decode_short_raises (code : list Z) :
  (length code < 40)%nat -> decode code = Raise IndexError.
Proof.
  intros H.
  do 40 (destruct code as [|? code]; [reflexivity|]).
  simpl in H. lia.
Qed.

(** ** The wireline frame: rejected inputs *)

(** C9: called with anything but a [bytes] object, [decode_wireline] raises
    the [ValueError] of its type check, whatever the value holds. *)
Theorem decode_wireline_not_bytes (code : pyobj) :
  (forall b, code <> PyBytes b) ->
  decode_wireline code = Raise (ValueError "Input must be bytes").
Proof.
  intros H. destruct code; try reflexivity. now elim (H b).
Qed.

Lemma decode_wireline_not_bytes_witness :
  (forall b, PyList [0x55; 0x01; 0x00] <> PyBytes b) /\
  decode_wireline (PyList [0x55; 0x01; 0x00])
    = Raise (ValueError "Input must be bytes").
Proof.
  split; [discriminate|].
  apply (decode_wireline_not_bytes (PyList [0x55; 0x01; 0x00])). discriminate.
Defined.

(** C6 as the specification states it does not hold: an input of 18 bytes
    that does not start with the header raises the length error, not the
    header error. *)
Lemma decode_wireline_short_is_length_error :
  firstn 3 (repeat x00%byte 18) <> header /\
  decode_wireline (PyBytes (repeat x00%byte 18))
    = Raise (ValueError "Input must be 19 bytes long") /\
  decode_wireline (PyBytes (repeat x00%byte 18))
    <> Raise (ValueError "First three bytes must be 0x55, 0x01, 0x00").
Proof.
  split; [discriminate|]. split; [reflexivity | discriminate].
Qed.

(** C6, amended: a [bytes] input that does not start with [55 01 00] raises
    the header error when it is 19 bytes long, and the length error when it
    has any other length. *)
Theorem decode_wireline_bad_header (code : list byte) :
  firstn 3 code <> header ->
  decode_wireline (PyBytes code) =
    if (length code =? 19)%nat
    then Raise (ValueError "First three bytes must be 0x55, 0x01, 0x00")
    else Raise (ValueError "Input must be 19 bytes long").
Proof.
  intros H. unfold decode_wireline. simpl is_bytes. cbv iota.
  destruct (length code =? 19)%nat; [|reflexivity].
  cbv [negb].
  destruct (bytes_eqb (firstn 3 code) [x55; x01; x00]%byte) eqn:E;
    [|reflexivity].
  apply bytes_eqb_eq in E. contradiction.
Qed.

Lemma decode_wireline_bad_header_witness :
  firstn 3 (repeat x55%byte 19) <> header /\
  decode_wireline (PyBytes (repeat x55%byte 19))
    = Raise (ValueError "First three bytes must be 0x55, 0x01, 0x00").
Proof.
  split; [discriminate|].
  apply (decode_wireline_bad_header (repeat x55%byte 19)). discriminate.
Defined.

(** ** The scrambler: illegal indicators *)

(** C7 as the specification states it does not hold: with the selector
    [0b0011], [_v2_scramble] and [_v2_unscramble] raise two different
    errors, a [KeyError] and a [ValueError], and the [ValueError] of
    [_v2_unscramble] is the very error that [_decode_v2_half_parts] raises,
    on a legal indicator, for a ternary digit of 3. *)
Lemma illegal_indicator_not_distinct :
  selector [0; 0; 1; 1; 0; 0; 0; 0] 0 = Ok 3 /\
  lookup_tables [0; 0; 0; 0; 1; 0; 0; 1]
    = Ok ([0; 2; 1]%nat, [false; false; false]) /\
  exists e_scramble e_unscramble e_digit,
    _v2_scramble [0; 0; 1; 1; 0; 0; 0; 0] [[0]; [0]; [0]]
      = Raise e_scramble /\
    _v2_unscramble [0; 0; 1; 1; 0; 0; 0; 0] [0; 0; 0]
      = Raise e_unscramble /\
    _decode_v2_half_parts 0 [0; 0; 0; 0; 1; 0; 0; 1] (repeat 1 30)
      = Raise e_digit /\
    e_scramble <> e_unscramble /\ e_unscramble = e_digit.
Proof.
  split; [reflexivity|]. split; [reflexivity|].
  exists KeyError, illegal_ternary, illegal_ternary.
  repeat split; try (vm_compute; reflexivity). discriminate.
Qed.

(** C7, amended: for an indicator whose permutation selector is [0b0011],
    or whose permutation selector is legal and whose inversion selector is
    [0b0011], [_v2_unscramble] raises [ValueError("Illegal value for
    ternary bit")], the error also raised for an illegal digit, and
    [_v2_scramble] raises the [KeyError] of the table lookup. *)
Theorem illegal_selector_errors (indicator : list Z) :
  selector indicator 0 = Ok 3 \/
  (exists k order,
      selector indicator 0 = Ok k /\ dict_get _ORDER k = Ok order /\
      selector indicator 4 = Ok 3) ->
  (forall payload,
      _v2_unscramble indicator payload = Raise illegal_ternary) /\
  (forall parts, _v2_scramble indicator parts = Raise KeyError).
Proof.
  intros H.
  assert (Hl : lookup_tables indicator = Raise KeyError).
  { unfold lookup_tables.
    destruct H as [-> | (k & order & -> & Ho & ->)]; cbn [bind].
    - reflexivity.
    - rewrite Ho. reflexivity. }
  split; intros x.
  - unfold _v2_unscramble. rewrite Hl. reflexivity.
  - unfold _v2_scramble. rewrite Hl. reflexivity.
Qed.

Lemma illegal_selector_errors_witness :
  selector [0; 0; 1; 1; 0; 0; 0; 0] 0 = Ok 3 /\
  (forall payload,
      _v2_unscramble [0; 0; 1; 1; 0; 0; 0; 0] payload
      = Raise illegal_ternary) /\
  (forall parts,
      _v2_scramble [0; 0; 1; 1; 0; 0; 0; 0] parts = Raise KeyError).
Proof.
  split; [reflexivity|].
  apply (illegal_selector_errors [0; 0; 1; 1; 0; 0; 0; 0]).
  left. reflexivity.
Defined.

(** ** Security+ 2.0: the rolling code across the two halves *)

Lemma rolling_base3_loop (rolling : Z) :
  exists r,
    for_each (range_down 18) rolling_base3_body (repeat 0 18, rolling)
    = Ok (digits 3 18 rolling, r).
Proof. eexists. reflexivity. Qed.

Lemma rolling_digits_split (ds : list Z) :
  length ds = 18%nat ->
  let rolling1 := slice ds 14 18 ++ slice ds 6 10 ++ slice ds 1 2 in
  let rolling2 := slice ds 10 14 ++ slice ds 2 6 ++ slice ds 0 1 in
  length rolling1 = 9%nat /\ length rolling2 = 9%nat /\
  (skipn 8 rolling2 ++ skipn 8 rolling1)
    ++ (slice rolling2 4 8 ++ slice rolling1 4 8)
    ++ (firstn 4 rolling2 ++ firstn 4 rolling1) = ds.
Proof.
  intros H.
  do 18 (destruct ds as [|? ds]; [discriminate H|]).
  destruct ds; [|discriminate H].
  repeat split; reflexivity.
Qed.

Lemma Forall_slice {A : Type} (P : A -> Prop) (l : list A) (a b : nat) :
  Forall P l -> Forall P (slice l a b).
Proof.
  intros H. unfold slice.
  apply (Forall_firstn_skipn P (b - a)), (Forall_firstn_skipn P a), H.
Qed.

Lemma encode_v2_rolling_round_trip (rolling : Z) :
  0 <= rolling < 2 ^ 28 ->
  exists rolling1 rolling2,
    _encode_v2_rolling rolling = Ok (rolling1, rolling2) /\
    length rolling1 = 9%nat /\ length rolling2 = 9%nat /\
    Forall trit rolling1 /\ Forall trit rolling2 /\
    _decode_v2_rolling rolling1 rolling2 = Ok rolling.
Proof.
  intros Hr. unfold _encode_v2_rolling.
  rewrite (reverse_bits_reversed 28 rolling)
    by (change (Z.of_nat 28) with 28; lia).
  cbn [bind].
  pose proof (reversed_range 28 rolling) as Hx.
  change (Z.of_nat 28) with 28 in Hx.
  pose proof (reversed_involutive 28 rolling Hr) as Hi.
  remember (reversed 28 rolling) as x eqn:Ex.
  destruct (rolling_base3_loop x) as (r' & ->). cbn [bind].
  pose proof (digits_length 3 18 x) as Hl.
  pose proof (digits3_trits 18 x) as Ht.
  pose proof (of_digits_digits 3 18 eq_refl x) as Ox.
  change (Z.of_nat 18) with 18 in Ox.
  remember (digits 3 18 x) as ds eqn:Eds.
  destruct (rolling_digits_split ds Hl) as (L1 & L2 & E).
  do 2 eexists. split; [reflexivity|].
  split; [exact L1|]. split; [exact L2|].
  split; [repeat (apply Forall_app; split); now apply Forall_slice|].
  split; [repeat (apply Forall_app; split); now apply Forall_slice|].
  unfold _decode_v2_rolling. rewrite <- app_assoc in E.
  rewrite <- !app_assoc. rewrite <- app_assoc in E. rewrite E.
  rewrite (proj2 (fold_base3 ds 0 (of_digits 3 ds)) eq_refl).
  rewrite Ox by lia. rewrite (geb_false x) by lia.
  rewrite (reverse_bits_reversed 28 x) by (change (Z.of_nat 28) with 28; lia).
  now rewrite Hi.
Qed.

(** ** Bit strings *)

Lemma map_m_int_of_char (l : list Z) :
  Forall bit l -> map_m int_of_char (map bit_char l) = Ok l.
Proof.
  induction 1 as [|d l [-> | ->] _ IH]; simpl; [reflexivity| |];
    rewrite IH; reflexivity.
Qed.

Lemma int_bits_digits (w : nat) (n : Z) :
  (1 <= w)%nat -> 0 <= n < 2 ^ Z.of_nat w -> int_bits w n = Ok (digits 2 w n).
Proof.
  intros Hw Hn. unfold int_bits. rewrite format_b_digits by assumption.
  apply map_m_int_of_char, digits2_bits.
Qed.

Lemma py_str_bits (l : list Z) :
  Forall bit l -> concat (map py_str l) = map bit_char l.
Proof.
  induction 1 as [|d l [-> | ->] _ IH]; simpl; [reflexivity| |];
    rewrite IH; reflexivity.
Qed.

Lemma int_of_bits_digits (w : nat) (n : Z) :
  (1 <= w)%nat -> 0 <= n < 2 ^ Z.of_nat w ->
  int_of_bits (digits 2 w n) = Ok n.
Proof.
  intros Hw Hn. unfold int_of_bits.
  rewrite py_str_bits by apply digits2_bits.
  rewrite int_base2_bits.
  - rewrite of_digits_digits by (assumption || lia). reflexivity.
  - apply digits2_bits.
  - intros E. apply (f_equal (@length Z)) in E.
    rewrite digits_length in E. simpl in E. lia.
Qed.

(** ** Security+ 2.0: ternary digits as bit pairs *)

Lemma trit_bits (d : Z) :
  trit d ->
  bit (Z.shiftr d 1) /\ bit (Z.land d 1) /\
  Z.lor (Z.shiftl (Z.shiftr d 1) 1) (Z.land d 1) = d /\ (3 =? d) = false.
Proof. unfold bit. intros [-> | [-> | ->]]; cbn; auto. Qed.

Lemma digit_bits_bits (ds : list Z) :
  Forall trit ds -> Forall bit (digit_bits ds).
Proof.
  induction 1 as [|d ds Hd _ IH]; simpl; [constructor|].
  destruct (trit_bits d Hd) as (H1 & H0 & _). auto.
Qed.

Lemma digit_bits_length (ds : list Z) :
  length (digit_bits ds) = (2 * length ds)%nat.
Proof. induction ds as [|d ds IH]; simpl; [reflexivity | rewrite IH; lia]. Qed.

Lemma digit_bits_app (ds1 ds2 : list Z) :
  digit_bits (ds1 ++ ds2) = digit_bits ds1 ++ digit_bits ds2.
Proof. apply flat_map_app. Qed.

Lemma no_three (ds : list Z) : Forall trit ds -> existsb (Z.eqb 3) ds = false.
Proof.
  induction 1 as [|d ds Hd _ IH]; cbn [existsb]; [reflexivity|].
  destruct (trit_bits d Hd) as (_ & _ & _ & ->). exact IH.
Qed.

Lemma list_eqb_refl (l : list Z) : list_eqb l l = true.
Proof.
  induction l as [|x l IH]; simpl; [reflexivity|].
  now rewrite Z.eqb_refl, IH.
Qed.

Lemma getitem_digit_bits (ds : list Z) : forall (k : nat) (d : Z),
  nth_error ds k = Some d ->
  getitem (digit_bits ds) (0 + k * 2) = Ok (Z.shiftr d 1) /\
  getitem (digit_bits ds) (0 + k * 2 + 1) = Ok (Z.land d 1).
Proof.
  induction ds as [|x ds IH]; intros [|k] d; simpl; try discriminate.
  - intros [= ->]. split; reflexivity.
  - intros H. apply (IH k d H).
Qed.

Lemma range_pairs (n : nat) :
  range 0 (2 * n) 2 = map (fun k => (0 + k * 2)%nat) (seq 0 n).
Proof.
  unfold range. do 2 f_equal.
  replace (2 * n - 0 + (2 - 1))%nat with (1 + n * 2)%nat by lia.
  rewrite Nat.div_add by lia. reflexivity.
Qed.

Lemma append_pairs_from (ds : list Z) :
  Forall trit ds ->
  forall (n k : nat) (rolling : list Z),
    (k + n = length ds)%nat ->
    for_each (map (fun j => (0 + j * 2)%nat) (seq k n))
      (fun rolling i =>
         hi <- getitem (digit_bits ds) i ;;
         lo <- getitem (digit_bits ds) (i + 1) ;;
         Ok (rolling ++ [Z.lor (Z.shiftl hi 1) lo]))
      rolling
    = Ok (rolling ++ skipn k ds).
Proof.
  intros Ht. induction n as [|n IH]; intros k rolling Hk.
  - simpl. rewrite skipn_all2 by lia. now rewrite app_nil_r.
  - destruct (getitem_skipn ds k) as (d & Hd & Hs); [lia|].
    unfold getitem in Hd. destruct (nth_error ds k) as [d'|] eqn:En;
      [injection Hd as ->|discriminate].
    destruct (getitem_digit_bits ds k d En) as [Hhi Hlo].
    cbn [seq map for_each]. rewrite Hhi, Hlo. cbn [bind].
    rewrite IH by lia. rewrite Hs, <- app_assoc. cbn [app].
    assert (Hd : trit d).
    { rewrite Forall_forall in Ht. apply Ht. eapply nth_error_In, En. }
    destruct (trit_bits d Hd) as (_ & _ & -> & _). reflexivity.
Qed.

Lemma append_pairs_digit_bits (ds rolling : list Z) :
  Forall trit ds -> append_pairs (digit_bits ds) rolling = Ok (rolling ++ ds).
Proof.
  intros Ht. unfold append_pairs.
  rewrite digit_bits_length, range_pairs.
  apply (append_pairs_from ds Ht (length ds) 0 rolling). reflexivity.
Qed.

Lemma indicator_legal (ds : list Z) :
  length ds = 4%nat -> Forall trit ds ->
  exists order invert, lookup_tables (digit_bits ds) = Ok (order, invert).
Proof.
  intros Hl Ht.
  do 4 (destruct ds as [|? ds]; [discriminate Hl|]).
  destruct ds; [|discriminate Hl].
  repeat match goal with
         | H : Forall trit (_ :: _) |- _ => inversion_clear H
         end.
  repeat match goal with
         | H : trit _ |- _ => destruct H as [-> | [-> | ->]]
         end;
    vm_compute; eauto.
Qed.

(** ** Security+ 2.0: one packet half *)

Lemma firstn_app_exact {A : Type} (n : nat) (l1 l2 : list A) :
  length l1 = n -> firstn n (l1 ++ l2) = l1.
Proof.
  intros <-. rewrite firstn_app, Nat.sub_diag, firstn_O, app_nil_r.
  apply firstn_all.
Qed.

Lemma skipn_app_exact {A : Type} (n : nat) (l1 l2 : list A) :
  length l1 = n -> skipn n (l1 ++ l2) = l2.
Proof.
  intros <-. rewrite skipn_app, Nat.sub_diag, skipn_all. reflexivity.
Qed.

Lemma half_parts_type0 (rolling fixed : list Z) :
  length rolling = 9%nat -> Forall trit rolling -> length fixed = 20%nat ->
  exists payload,
    _encode_v2_half_parts rolling fixed None
      = Ok (0, digit_bits (firstn 4 rolling), payload) /\
    length payload = 30%nat /\
    _decode_v2_half_parts 0 (digit_bits (firstn 4 rolling)) payload
      = Ok (rolling, fixed, None) /\
    (Forall bit fixed -> Forall bit payload).
Proof.
  intros Hl Ht Hf.
  destruct (Forall_firstn_skipn trit 4 rolling Ht) as [Ht1 Ht2].
  assert (La : length (firstn 4 rolling) = 4%nat)
    by (rewrite length_firstn; lia).
  assert (Lb : length (skipn 4 rolling) = 5%nat)
    by (rewrite length_skipn; lia).
  pose proof (firstn_skipn 4 rolling) as Er.
  unfold _encode_v2_half_parts.
  remember (firstn 4 rolling) as ra eqn:Era.
  remember (skipn 4 rolling) as rb eqn:Erb.
  destruct (indicator_legal ra La Ht1) as (order & invert & Hlk).
  destruct (scramble_unscramble (digit_bits ra) order invert
              (firstn 10 fixed) (skipn 10 fixed) (digit_bits rb) Hlk)
    as (payload & Hs & Hu & Hlen & Hbits).
  { rewrite length_skipn, length_firstn. lia. }
  { rewrite digit_bits_length, length_firstn. lia. }
  assert (Hlen' : length payload = 30%nat)
    by (rewrite Hlen, length_firstn; lia).
  exists payload. cbv beta iota zeta. rewrite Hs. cbn [bind].
  split; [reflexivity|]. split; [exact Hlen'|]. split.
  - unfold _decode_v2_half_parts. rewrite Z.eqb_refl. cbn [bind].
    rewrite Hlen', Nat.eqb_refl. cbn [negb]. cbv iota.
    rewrite Hu. cbn [bind].
    rewrite append_pairs_digit_bits by assumption. cbn [bind getitem nth_error].
    rewrite append_pairs_digit_bits by assumption. cbn [bind app].
    rewrite Er, no_three by assumption.
    rewrite firstn_firstn, (firstn_all2 (n := 10) (skipn 10 fixed))
      by (rewrite length_skipn; lia).
    change (Nat.min 10 10) with 10%nat. rewrite firstn_skipn. reflexivity.
  - intros Hb. destruct (Forall_firstn_skipn bit 10 fixed Hb) as [Hb1 Hb2].
    apply Hbits; try assumption. now apply digit_bits_bits.
Qed.

Lemma half_parts_type1 (rolling fixed data : list Z) :
  length rolling = 9%nat -> Forall trit rolling -> length fixed = 20%nat ->
  length data = 16%nat ->
  exists payload,
    _encode_v2_half_parts rolling fixed (Some data)
      = Ok (1, digit_bits (firstn 4 rolling), payload) /\
    length payload = 54%nat /\
    _decode_v2_half_parts 1 (digit_bits (firstn 4 rolling)) payload
      = Ok (rolling, fixed, Some data) /\
    (Forall bit fixed -> Forall bit data -> Forall bit payload).
Proof.
  intros Hl Ht Hf Hd.
  destruct (Forall_firstn_skipn trit 4 rolling Ht) as [Ht1 Ht2].
  assert (La : length (firstn 4 rolling) = 4%nat)
    by (rewrite length_firstn; lia).
  assert (Lb : length (skipn 4 rolling) = 5%nat)
    by (rewrite length_skipn; lia).
  pose proof (firstn_skipn 4 rolling) as Er.
  unfold _encode_v2_half_parts.
  remember (firstn 4 rolling) as ra eqn:Era.
  remember (skipn 4 rolling) as rb eqn:Erb.
  assert (Lf1 : length (firstn 10 fixed) = 10%nat)
    by (rewrite length_firstn; lia).
  assert (Lf2 : length (skipn 10 fixed) = 10%nat)
    by (rewrite length_skipn; lia).
  remember (firstn 10 fixed) as f1 eqn:Ef1.
  remember (skipn 10 fixed) as f2 eqn:Ef2.
  destruct (indicator_legal ra La Ht1) as (order & invert & Hlk).
  destruct (scramble_unscramble (digit_bits ra) order invert
              (f1 ++ firstn 8 data) (f2 ++ skipn 8 data)
              (digit_bits rb ++ digit_bits ra) Hlk)
    as (payload & Hs & Hu & Hlen & Hbits).
  { rewrite !length_app, length_skipn, length_firstn. lia. }
  { rewrite !length_app, !digit_bits_length, length_firstn. lia. }
  assert (Hlen' : length payload = 54%nat)
    by (rewrite Hlen, length_app, length_firstn; lia).
  exists payload. cbv beta iota zeta. rewrite Hs. cbn [bind].
  split; [reflexivity|]. split; [exact Hlen'|]. split.
  - unfold _decode_v2_half_parts.
    change (1 =? 0) with false. change (1 =? 1) with true. cbn [bind].
    rewrite Hlen', Nat.eqb_refl. cbn [negb]. cbv iota.
    rewrite Hu. cbn [bind].
    rewrite append_pairs_digit_bits by assumption. cbn [bind getitem nth_error].
    rewrite <- digit_bits_app.
    rewrite append_pairs_digit_bits by (apply Forall_app; split; assumption).
    cbn [bind app].
    rewrite no_three by (repeat (apply Forall_app; split); assumption).
    unfold last_k, drop_last_k.
    rewrite (firstn_app_exact 4 ra) by assumption.
    rewrite !length_app, La, Lb. change (4 + (5 + 4) - 4)%nat with 9%nat.
    rewrite (app_assoc ra rb ra).
    rewrite (skipn_app_exact 9 (ra ++ rb)) by (rewrite length_app; lia).
    rewrite (firstn_app_exact 9 (ra ++ rb)) by (rewrite length_app; lia).
    rewrite list_eqb_refl. cbn [negb]. cbv iota.
    rewrite !firstn_app_exact, !skipn_app_exact by assumption.
    rewrite Er, Ef1, Ef2, !firstn_skipn. reflexivity.
  - intros Hb Hbd.
    destruct (Forall_firstn_skipn bit 10 fixed Hb) as [Hb1 Hb2].
    destruct (Forall_firstn_skipn bit 8 data Hbd) as [Hd1 Hd2].
    subst f1 f2.
    apply Hbits; repeat (apply Forall_app; split); try assumption;
      now apply digit_bits_bits.
Qed.

Lemma half_type0 (rolling fixed : list Z) :
  length rolling = 9%nat -> Forall trit rolling -> length fixed = 20%nat ->
  exists code,
    _encode_v2_half rolling fixed None = Ok code /\
    length code = 40%nat /\
    _decode_v2_half code = Ok (rolling, fixed, None) /\
    (Forall bit fixed -> Forall bit code).
Proof.
  intros Hl Ht Hf.
  destruct (half_parts_type0 rolling fixed Hl Ht Hf)
    as (payload & He & Hlen & Hd & Hb).
  assert (Li : length (digit_bits (firstn 4 rolling)) = 8%nat)
    by (rewrite digit_bits_length, length_firstn; lia).
  unfold _encode_v2_half. rewrite He. cbn [bind].
  remember (digit_bits (firstn 4 rolling)) as indicator eqn:Ei.
  eexists. split; [reflexivity|]. split; [|split].
  - cbn [app length]. rewrite length_app. lia.
  - unfold _decode_v2_half, slice. cbn [app getitem nth_error bind].
    rewrite !skipn_cons, skipn_O. change (10 - 2)%nat with 8%nat.
    rewrite (firstn_app_exact 8 indicator), (skipn_app_exact 8 indicator)
      by assumption.
    exact Hd.
  - intros Hbf. cbn [app].
    repeat (constructor; [unfold bit; cbn; auto|]).
    apply Forall_app. split; [|now apply Hb].
    subst indicator. apply digit_bits_bits.
    now apply (Forall_firstn_skipn trit 4 rolling).
Qed.

Lemma half_type1 (rolling fixed data : list Z) :
  length rolling = 9%nat -> Forall trit rolling -> length fixed = 20%nat ->
  length data = 16%nat ->
  exists code,
    _encode_v2_half rolling fixed (Some data) = Ok code /\
    length code = 64%nat /\
    _decode_v2_half code = Ok (rolling, fixed, Some data) /\
    (Forall bit fixed -> Forall bit data -> Forall bit code).
Proof.
  intros Hl Ht Hf Hda.
  destruct (half_parts_type1 rolling fixed data Hl Ht Hf Hda)
    as (payload & He & Hlen & Hd & Hb).
  assert (Li : length (digit_bits (firstn 4 rolling)) = 8%nat)
    by (rewrite digit_bits_length, length_firstn; lia).
  unfold _encode_v2_half. rewrite He. cbn [bind].
  remember (digit_bits (firstn 4 rolling)) as indicator eqn:Ei.
  eexists. split; [reflexivity|]. split; [|split].
  - cbn [app length]. rewrite length_app. lia.
  - unfold _decode_v2_half, slice. cbn [app getitem nth_error bind].
    rewrite !skipn_cons, skipn_O. change (10 - 2)%nat with 8%nat.
    rewrite (firstn_app_exact 8 indicator), (skipn_app_exact 8 indicator)
      by assumption.
    exact Hd.
  - intros Hbf Hbd. cbn [app].
    repeat (constructor; [unfold bit; cbn; auto|]).
    apply Forall_app. split; [|now apply Hb].
    subst indicator. apply digit_bits_bits.
    now apply (Forall_firstn_skipn trit 4 rolling).
Qed.

(** ** Security+ 2.0: the over-the-air code *)

Lemma check_limits_ok (rolling fixed : Z) (data : option Z) :
  rolling < 2 ^ 28 -> fixed < 2 ^ 40 ->
  match data with Some d => d < 2 ^ 32 | None => True end ->
  _v2_check_limits rolling fixed data = Ok tt.
Proof.
  intros Hr Hf Hd. unfold _v2_check_limits.
  rewrite (geb_false rolling), (geb_false fixed) by assumption.
  destruct data as [d|]; [|reflexivity].
  now rewrite (geb_false d).
Qed.

Lemma half_len (h1 h2 : list Z) (n : nat) :
  length h1 = n -> length h2 = n -> (length (h1 ++ h2) / 2)%nat = n.
Proof.
  intros H1 H2. rewrite length_app, H1, H2.
  replace (n + n)%nat with (n * 2)%nat by lia. apply Nat.div_mul. lia.
Qed.

Lemma v2_code_round_trip (rolling fixed : Z) (data : option Z) :
  0 <= rolling < 2 ^ 28 -> 0 <= fixed < 2 ^ 40 ->
  match data with Some d => 0 <= d < 2 ^ 32 | None => True end ->
  exists code,
    encode_v2 rolling fixed data = Ok code /\
    decode_v2 code = Ok (rolling, fixed, data) /\
    Forall bit code /\
    length code = match data with Some _ => 128%nat | None => 80%nat end.
Proof.
  intros Hr Hf Hd. unfold encode_v2.
  rewrite check_limits_ok
    by first [lia | destruct data; [lia | exact I]].
  cbn [bind].
  destruct (encode_v2_rolling_round_trip rolling Hr)
    as (r1 & r2 & -> & L1 & L2 & T1 & T2 & Hdr).
  cbn [bind].
  rewrite (int_bits_digits 40 fixed) by (change (Z.of_nat 40) with 40; lia).
  cbn [bind].
  pose proof (int_of_bits_digits 40 fixed) as Of.
  change (Z.of_nat 40) with 40 in Of.
  pose proof (digits_length 2 40 fixed) as Lf.
  pose proof (digits2_bits 40 fixed) as Bf.
  remember (digits 2 40 fixed) as fb eqn:Efb.
  destruct (Forall_firstn_skipn bit 20 fb Bf) as [Bf1 Bf2].
  assert (Lf1 : length (firstn 20 fb) = 20%nat)
    by (rewrite length_firstn; lia).
  assert (Lf2 : length (skipn 20 fb) = 20%nat)
    by (rewrite length_skipn; lia).
  destruct data as [d|].
  - rewrite (int_bits_digits 32 d) by (change (Z.of_nat 32) with 32; lia).
    cbn [bind].
    pose proof (int_of_bits_digits 32 d) as Od.
    change (Z.of_nat 32) with 32 in Od.
    pose proof (digits_length 2 32 d) as Ld.
    pose proof (digits2_bits 32 d) as Bd.
    remember (digits 2 32 d) as db eqn:Edb.
    destruct (Forall_firstn_skipn bit 16 db Bd) as [Bd1 Bd2].
    assert (Ld1 : length (firstn 16 db) = 16%nat)
      by (rewrite length_firstn; lia).
    assert (Ld2 : length (skipn 16 db) = 16%nat)
      by (rewrite length_skipn; lia).
    destruct (half_type1 r1 (firstn 20 fb) (firstn 16 db) L1 T1 Lf1 Ld1)
      as (h1 & -> & Lh1 & D1 & B1).
    destruct (half_type1 r2 (skipn 20 fb) (skipn 16 db) L2 T2 Lf2 Ld2)
      as (h2 & -> & Lh2 & D2 & B2).
    cbn [bind]. eexists. split; [reflexivity|]. split; [|split].
    + unfold decode_v2. rewrite (half_len h1 h2 64) by assumption.
      rewrite firstn_app_exact, skipn_app_exact by assumption.
      rewrite D1, D2. cbn [bind]. rewrite Hdr. cbn [bind].
      rewrite !firstn_skipn, Of, Od by lia. reflexivity.
    + apply Forall_app. split; [apply B1 | apply B2]; assumption.
    + rewrite length_app, Lh1, Lh2. reflexivity.
  - destruct (half_type0 r1 (firstn 20 fb) L1 T1 Lf1)
      as (h1 & H1 & Lh1 & D1 & B1).
    destruct (half_type0 r2 (skipn 20 fb) L2 T2 Lf2)
      as (h2 & H2 & Lh2 & D2 & B2).
    cbn [bind]. rewrite H1, H2.
    cbn [bind]. eexists. split; [reflexivity|]. split; [|split].
    + unfold decode_v2. rewrite (half_len h1 h2 40) by assumption.
      rewrite firstn_app_exact, skipn_app_exact by assumption.
      rewrite D1, D2. cbn [bind]. rewrite Hdr. cbn [bind].
      rewrite !firstn_skipn, Of by lia. reflexivity.
    + apply Forall_app. split; [apply B1 | apply B2]; assumption.
    + rewrite length_app, Lh1, Lh2. reflexivity.
Qed.

(** ** Security+ 2.0: the wireline frame *)

Lemma wireline_half (rolling fixed data : list Z) :
  length rolling = 9%nat -> Forall trit rolling -> length fixed = 20%nat ->
  length data = 16%nat ->
  exists code,
    _encode_wireline_half rolling fixed data = Ok code /\
    length code = 64%nat /\
    _decode_wireline_half code = Ok (rolling, fixed, Some data) /\
    (Forall bit fixed -> Forall bit data -> Forall bit code).
Proof.
  intros Hl Ht Hf Hda.
  destruct (half_parts_type1 rolling fixed data Hl Ht Hf Hda)
    as (payload & He & Hlen & Hd & Hb).
  assert (Li : length (digit_bits (firstn 4 rolling)) = 8%nat)
    by (rewrite digit_bits_length, length_firstn; lia).
  unfold _encode_wireline_half. rewrite He. cbn [bind].
  remember (digit_bits (firstn 4 rolling)) as indicator eqn:Ei.
  eexists. split; [reflexivity|]. split; [|split].
  - rewrite !length_app. cbn [length]. lia.
  - unfold _decode_wireline_half, slice.
    rewrite (firstn_app_exact 8 indicator), (skipn_app_exact 8 indicator)
      by assumption.
    change (10 - 8)%nat with 2%nat. cbn [app firstn].
    rewrite list_eqb_refl. cbn [negb]. cbv iota.
    change (indicator ++ 0 :: 0 :: payload)
      with (indicator ++ [0; 0] ++ payload).
    rewrite app_assoc, (skipn_app_exact 10 (indicator ++ [0; 0]))
      by (rewrite length_app; cbn [length]; lia).
    exact Hd.
  - intros Hbf Hbd. apply Forall_app. split.
    + subst indicator. apply digit_bits_bits.
      now apply (Forall_firstn_skipn trit 4 rolling).
    + cbn [app]. repeat (constructor; [unfold bit; auto|]). now apply Hb.
Qed.

Lemma getitem_offset {A : Type} (l : list A) (k j : nat) :
  getitem l (k + j) = getitem (skipn k l) j.
Proof. unfold getitem. now rewrite nth_error_skipn. Qed.

Lemma pack_chunk (payload_bits : list Z) (n : nat) (chunk rest : list Z) :
  skipn (n * 8) payload_bits = chunk ++ rest -> length chunk = 8%nat ->
  for_each (seq 0 8) (pack_byte_body payload_bits n) 0 = Ok (pack8 chunk).
Proof.
  intros Hs Hc.
  do 8 (destruct chunk as [|? chunk]; [discriminate Hc|]).
  destruct chunk; [|discriminate Hc].
  unfold pack_byte_body. cbn [for_each seq].
  rewrite !getitem_offset, Hs. reflexivity.
Qed.

Lemma pack_loop (payload_bits : list Z) :
  forall (n k : nat) (packet : list Z),
    length (skipn (k * 8) payload_bits) = (n * 8)%nat ->
    for_each (seq k n) (pack_body payload_bits) packet
    = Ok (packet ++ pack_all n (skipn (k * 8) payload_bits)).
Proof.
  induction n as [|n IH]; intros k packet Hlen.
  - cbn. now rewrite app_nil_r.
  - cbn [seq for_each pack_all]. unfold pack_body at 1.
    rewrite (pack_chunk payload_bits k
               (firstn 8 (skipn (k * 8) payload_bits))
               (skipn 8 (skipn (k * 8) payload_bits)))
      by first [symmetry; apply firstn_skipn | rewrite length_firstn; lia].
    cbn [bind]. rewrite skipn_skipn.
    rewrite IH by (change (S k * 8)%nat with (8 + k * 8)%nat;
                   rewrite <- skipn_skipn, length_skipn; lia).
    rewrite <- app_assoc. reflexivity.
Qed.

Lemma pack8_byte (chunk : list Z) :
  length chunk = 8%nat -> Forall bit chunk ->
  exists b, byte_of_int (pack8 chunk) = Ok b /\ byte_bits b = chunk.
Proof.
  intros Hc Hb.
  do 8 (destruct chunk as [|? chunk]; [discriminate Hc|]).
  destruct chunk; [|discriminate Hc].
  repeat match goal with
         | H : Forall bit (_ :: _) |- _ => inversion_clear H
         end.
  repeat match goal with
         | H : bit _ |- _ => destruct H as [-> | ->]
         end;
    eexists; split; vm_compute; reflexivity.
Qed.

Lemma pack_all_bytes (n : nat) : forall bits : list Z,
  length bits = (n * 8)%nat -> Forall bit bits ->
  exists bs,
    map_m byte_of_int (pack_all n bits) = Ok bs /\
    flat_map byte_bits bs = bits /\ length bs = n.
Proof.
  induction n as [|n IH]; intros bits Hlen Hb.
  - destruct bits; [|discriminate Hlen]. exists []. now cbn.
  - destruct (Forall_firstn_skipn bit 8 bits Hb) as [Hb1 Hb2].
    destruct (pack8_byte (firstn 8 bits)) as (b & Eb & Ebits);
      [rewrite length_firstn; lia | assumption |].
    destruct (IH (skipn 8 bits)) as (bs & Ebs & Eflat & Ebl);
      [rewrite length_skipn; lia | assumption |].
    exists (b :: bs). cbn [pack_all map_m]. rewrite Eb, Ebs. cbn [bind].
    split; [reflexivity|]. split.
    + cbn [flat_map]. rewrite Ebits, Eflat. apply firstn_skipn.
    + cbn [length]. now rewrite Ebl.
Qed.

Lemma decode_wireline_framed (bs : list byte) :
  length bs = 16%nat ->
  decode_wireline (PyBytes (x55 :: x01 :: x00 :: bs)%byte) =
  let code_bits := flat_map byte_bits bs in
  '(rolling1, fixed1, data1) <- _decode_wireline_half (firstn 64 code_bits) ;;
  '(rolling2, fixed2, data2) <- _decode_wireline_half (skipn 64 code_bits) ;;
  rolling <- _decode_v2_rolling rolling1 rolling2 ;;
  fixed <- int_of_bits (fixed1 ++ fixed2) ;;
  match data1, data2 with
  | Some data1, Some data2 =>
      data <- int_of_bits (data1 ++ data2) ;;
      Ok (rolling, fixed, data)
  | _, _ => Raise TypeError
  end.
Proof.
  intros H. unfold decode_wireline. cbn [is_bytes length]. rewrite H.
  reflexivity.
Qed.

Lemma wireline_code_round_trip (rolling fixed data : Z) :
  0 <= rolling < 2 ^ 28 -> 0 <= fixed < 2 ^ 40 -> 0 <= data < 2 ^ 32 ->
  exists code,
    encode_wireline rolling fixed data = Ok code /\
    decode_wireline (PyBytes code) = Ok (rolling, fixed, data).
Proof.
  intros Hr Hf Hd. unfold encode_wireline.
  rewrite check_limits_ok by lia. cbn [bind].
  destruct (encode_v2_rolling_round_trip rolling Hr)
    as (r1 & r2 & -> & L1 & L2 & T1 & T2 & Hdr).
  cbn [bind].
  rewrite (int_bits_digits 40 fixed) by (change (Z.of_nat 40) with 40; lia).
  cbn [bind].
  pose proof (int_of_bits_digits 40 fixed) as Of.
  change (Z.of_nat 40) with 40 in Of.
  pose proof (digits_length 2 40 fixed) as Lf.
  pose proof (digits2_bits 40 fixed) as Bf.
  remember (digits 2 40 fixed) as fb eqn:Efb.
  destruct (Forall_firstn_skipn bit 20 fb Bf) as [Bf1 Bf2].
  assert (Lf1 : length (firstn 20 fb) = 20%nat)
    by (rewrite length_firstn; lia).
  assert (Lf2 : length (skipn 20 fb) = 20%nat)
    by (rewrite length_skipn; lia).
  rewrite (int_bits_digits 32 data) by (change (Z.of_nat 32) with 32; lia).
  cbn [bind].
  pose proof (int_of_bits_digits 32 data) as Od.
  change (Z.of_nat 32) with 32 in Od.
  pose proof (digits_length 2 32 data) as Ld.
  pose proof (digits2_bits 32 data) as Bd.
  remember (digits 2 32 data) as db eqn:Edb.
  destruct (Forall_firstn_skipn bit 16 db Bd) as [Bd1 Bd2].
  assert (Ld1 : length (firstn 16 db) = 16%nat)
    by (rewrite length_firstn; lia).
  assert (Ld2 : length (skipn 16 db) = 16%nat)
    by (rewrite length_skipn; lia).
  destruct (wireline_half r1 (firstn 20 fb) (firstn 16 db) L1 T1 Lf1 Ld1)
    as (h1 & -> & Lh1 & D1 & B1).
  destruct (wireline_half r2 (skipn 20 fb) (skipn 16 db) L2 T2 Lf2 Ld2)
    as (h2 & -> & Lh2 & D2 & B2).
  cbn [bind].
  assert (Lp : length (h1 ++ h2) = (16 * 8)%nat)
    by (rewrite length_app, Lh1, Lh2; reflexivity).
  rewrite Lp. change (16 * 8 / 8)%nat with 16%nat.
  rewrite (pack_loop (h1 ++ h2) 16 0) by exact Lp.
  cbn [bind]. change (skipn (0 * 8) (h1 ++ h2)) with (h1 ++ h2).
  destruct (pack_all_bytes 16 (h1 ++ h2) Lp) as (bs & Ebs & Eflat & Lbs).
  { apply Forall_app. split; [apply B1 | apply B2]; assumption. }
  cbn [app map_m].
  change (byte_of_int 0x55) with (Ok x55).
  change (byte_of_int 0x01) with (Ok x01).
  change (byte_of_int 0x00) with (Ok x00).
  rewrite Ebs. cbn [bind].
  eexists. split; [reflexivity|].
  rewrite (decode_wireline_framed bs Lbs). cbv zeta. rewrite Eflat.
  rewrite firstn_app_exact, skipn_app_exact by assumption.
  rewrite D1, D2. cbn [bind]. rewrite Hdr. cbn [bind].
  rewrite !firstn_skipn, Of, Od by lia. reflexivity.
Qed.

(** C1: for a rolling code below 2^28, a fixed code below 2^40 and data that
    is absent or below 2^32, [encode_v2] returns a code on which [decode_v2]
    returns the rolling code, the fixed code and the data; with data
    present, [encode_wireline] returns a frame on which [decode_wireline]
    returns the three of them. *)
Theorem v2_round_trip (rolling fixed : Z) :
  0 <= rolling < 2 ^ 28 -> 0 <= fixed < 2 ^ 40 ->
  (forall data : option Z,
      match data with Some d => 0 <= d < 2 ^ 32 | None => True end ->
      exists code,
        encode_v2 rolling fixed data = Ok code /\
        decode_v2 code = Ok (rolling, fixed, data)) /\
  (forall data : Z,
      0 <= data < 2 ^ 32 ->
      exists code,
        encode_wireline rolling fixed data = Ok code /\
        decode_wireline (PyBytes code) = Ok (rolling, fixed, data)).
Proof.
  intros Hr Hf. split.
  - intros data Hd.
    destruct (v2_code_round_trip rolling fixed data Hr Hf Hd)
      as (code & He & Hdec & _).
    now exists code.
  - intros data Hd. now apply wireline_code_round_trip.
Qed.

Lemma v2_round_trip_witness :
  (0 <= 123456 < 2 ^ 28 /\ 0 <= 78901234567 < 2 ^ 40) /\
  (exists code,
      encode_v2 123456 78901234567 None = Ok code /\
      decode_v2 code = Ok (123456, 78901234567, None)) /\
  (exists code,
      encode_v2 123456 78901234567 (Some 4242424242) = Ok code /\
      decode_v2 code = Ok (123456, 78901234567, Some 4242424242)) /\
  (exists code,
      encode_wireline 123456 78901234567 4242424242 = Ok code /\
      decode_wireline (PyBytes code) = Ok (123456, 78901234567, 4242424242)).
Proof.
  assert (Hr : 0 <= 123456 < 2 ^ 28) by lia.
  assert (Hf : 0 <= 78901234567 < 2 ^ 40) by lia.
  destruct (v2_round_trip 123456 78901234567 Hr Hf) as [Hv Hw].
  split; [split; assumption|].
  split; [apply (Hv None); exact I|].
  split; [apply (Hv (Some 4242424242)); lia | apply Hw; lia].
Defined.

(** ** The Manchester framer *)

Lemma manchester_flat_map (code : list Z) :
  _manchester code
  = flat_map (fun bit => if bit =? 0 then [1; 0] else [0; 1]) code.
Proof.
  unfold _manchester.
  assert (H : forall output,
             fold_left
               (fun output bit =>
                  if bit =? 0 then output ++ [1; 0] else output ++ [0; 1])
               code output
             = output
                 ++ flat_map (fun bit => if bit =? 0 then [1; 0] else [0; 1])
                      code).
  { induction code as [|b code IH]; intros output; cbn [fold_left flat_map].
    - now rewrite app_nil_r.
    - rewrite IH. destruct (b =? 0); now rewrite <- app_assoc. }
  apply (H []).
Qed.

Lemma manchester_expansion_bits (code : list Z) :
  Forall bit code -> manchester_expansion code = Some (_manchester code).
Proof.
  rewrite manchester_flat_map.
  induction 1 as [|b code [-> | ->] _ IH]; cbn [manchester_expansion flat_map];
    [reflexivity | |]; rewrite IH; reflexivity.
Qed.

Lemma preamble_bits : Forall bit preamble.
Proof.
  unfold preamble. repeat (apply Forall_cons; [unfold bit; auto|]).
  apply Forall_nil.
Qed.

(** C8: for a rolling code below 2^28, a fixed code below 2^40 and data that
    is absent or below 2^32, [encode_v2_manchester] returns the Manchester
    expansion (0 as 1,0 and 1 as 0,1) of the preamble, the marker 0,0 and
    the first half of the code of [encode_v2], then 33 zeros, then the
    expansion of the preamble, the marker 0,1 and the second half, then 33
    zeros again. *)
Theorem encode_v2_manchester_frames (rolling fixed : Z) (data : option Z) :
  0 <= rolling < 2 ^ 28 -> 0 <= fixed < 2 ^ 40 ->
  match data with Some d => 0 <= d < 2 ^ 32 | None => True end ->
  exists code frame1 frame2,
    encode_v2 rolling fixed data = Ok code /\
    manchester_expansion
      (preamble ++ [0; 0] ++ firstn (length code / 2) code) = Some frame1 /\
    manchester_expansion
      (preamble ++ [0; 1] ++ skipn (length code / 2) code) = Some frame2 /\
    encode_v2_manchester rolling fixed data
    = Ok (frame1 ++ repeat 0 33 ++ frame2 ++ repeat 0 33).
Proof.
  intros Hr Hf Hd.
  destruct (v2_code_round_trip rolling fixed data Hr Hf Hd)
    as (code & He & _ & Hb & _).
  destruct (Forall_firstn_skipn bit (length code / 2) code Hb) as [Hb1 Hb2].
  exists code. do 2 eexists. split; [exact He|].
  split; [|split].
  - apply manchester_expansion_bits.
    apply Forall_app. split; [apply preamble_bits|].
    apply Forall_app. split; [|exact Hb1].
    repeat (apply Forall_cons; [unfold bit; auto|]). apply Forall_nil.
  - apply manchester_expansion_bits.
    apply Forall_app. split; [apply preamble_bits|].
    apply Forall_app. split; [|exact Hb2].
    repeat (apply Forall_cons; [unfold bit; auto|]). apply Forall_nil.
  - unfold encode_v2_manchester. rewrite He. reflexivity.
Qed.

Lemma encode_v2_manchester_frames_witness :
  (0 <= 123456 < 2 ^ 28 /\ 0 <= 78901234567 < 2 ^ 40) /\
  exists code frame1 frame2,
    encode_v2 123456 78901234567 None = Ok code /\
    manchester_expansion
      (preamble ++ [0; 0] ++ firstn (length code / 2) code) = Some frame1 /\
    manchester_expansion
      (preamble ++ [0; 1] ++ skipn (length code / 2) code) = Some frame2 /\
    encode_v2_manchester 123456 78901234567 None
    = Ok (frame1 ++ repeat 0 33 ++ frame2 ++ repeat 0 33).
Proof.
  assert (Hr : 0 <= 123456 < 2 ^ 28) by lia.
  assert (Hf : 0 <= 78901234567 < 2 ^ 40) by lia.
  split; [split; assumption|].
  exact (encode_v2_manchester_frames 123456 78901234567 None Hr Hf I).
Defined.

(** * Further properties of the code *)

(** ** Security+ (v1): what [encode] returns *)

Lemma enc_pairs_trits (rs : list Z) : forall fs acc,
  Forall trit rs -> Forall trit (enc_pairs acc rs fs).
Proof.
  induction rs as [|r rs IH]; intros [|f fs] acc Hr; simpl;
    try apply Forall_nil.
  inversion_clear Hr as [|? ? Hr0 Hrs].
  apply Forall_cons; [exact Hr0|].
  apply Forall_cons; [|now apply IH].
  apply trit_range, Z.mod_pos_bound. lia.
Qed.

Lemma encode_pairs (rolling fixed : Z) :
  rolling < 2 ^ 32 -> fixed < 3 ^ 20 ->
  let rs := digits 3 20 (reversed 32 (Z.land rolling 0xfffffffe)) in
  let fs := digits 3 20 fixed in
  encode rolling fixed
  = Ok (enc_pairs 0 (firstn 10 rs) (firstn 10 fs)
          ++ enc_pairs 0 (skipn 10 rs) (skipn 10 fs)).
Proof.
  intros Hr Hf. cbv zeta. unfold encode.
  rewrite (geb_false rolling), (geb_false fixed) by lia.
  destruct (land_mask_range rolling) as [Hm _].
  remember (Z.land rolling 0xfffffffe) as masked eqn:Em.
  rewrite (reverse_bits_reversed 32 masked)
    by (change (Z.of_nat 32) with 32; lia).
  cbn [bind].
  remember (reversed 32 masked) as x eqn:Ex.
  destruct (encode_base3_loop x fixed) as (r' & f' & ->). cbn [bind].
  pose proof (digits_length 3 20 x) as Hrs.
  pose proof (digits_length 3 20 fixed) as Hfs.
  remember (digits 3 20 x) as rs eqn:Ers.
  remember (digits 3 20 fixed) as fs eqn:Efs.
  destruct (encode_code_loop rs fs Hrs Hfs) as (acc & ->). reflexivity.
Qed.

(** X1: [encode] raises the rolling-code error for every rolling code of
    2^32 or more, whatever the fixed code, and the fixed-code error for a
    rolling code below 2^32 and a fixed code of 3^20 or more. *)
Theorem encode_range_errors (rolling fixed : Z) :
  (2 ^ 32 <= rolling ->
   encode rolling fixed
   = Raise (ValueError "Rolling code must be less than 2^32")) /\
  (rolling < 2 ^ 32 -> 3 ^ 20 <= fixed ->
   encode rolling fixed
   = Raise (ValueError "Fixed code must be less than 3^20")).
Proof.
  unfold encode. split.
  - intros Hr. replace (rolling >=? 2 ^ 32) with true; [reflexivity|].
    symmetry. rewrite Z.geb_leb. apply Z.leb_le. exact Hr.
  - intros Hr Hf. rewrite (geb_false rolling) by exact Hr.
    replace (fixed >=? 3 ^ 20) with true; [reflexivity|].
    symmetry. rewrite Z.geb_leb. apply Z.leb_le. exact Hf.
Qed.

Lemma encode_range_errors_witness :
  encode (2 ^ 32) (3 ^ 20)
    = Raise (ValueError "Rolling code must be less than 2^32") /\
  encode 0 (3 ^ 20) = Raise (ValueError "Fixed code must be less than 3^20").
Proof.
  destruct (encode_range_errors (2 ^ 32) (3 ^ 20)) as [H _].
  destruct (encode_range_errors 0 (3 ^ 20)) as [_ H'].
  split; [apply H; lia | apply H'; lia].
Defined.

Lemma encode_trits (rolling fixed : Z) :
  rolling < 2 ^ 32 -> fixed < 3 ^ 20 ->
  exists code,
    encode rolling fixed = Ok code /\ length code = 40%nat /\
    Forall trit code.
Proof.
  intros Hr Hf. rewrite (encode_pairs rolling fixed Hr Hf).
  eexists. split; [reflexivity|]. split.
  - rewrite length_app, !enc_pairs_length;
      rewrite ?length_firstn, ?length_skipn, !digits_length; reflexivity.
  - apply Forall_app. split; apply enc_pairs_trits;
      apply Forall_firstn_skipn, digits3_trits.
Qed.

(** X2: for a rolling code below 2^32 and a fixed code below 3^20 (negative
    values included) [encode] does not fail and returns 40 symbols, each of
    them 0, 1 or 2. *)
Theorem encode_shape (rolling fixed : Z) :
  rolling < 2 ^ 32 -> fixed < 3 ^ 20 ->
  exists code,
    encode rolling fixed = Ok code /\ length code = 40%nat /\
    Forall trit code.
Proof.
  intros Hr Hf. rewrite (encode_pairs rolling fixed Hr Hf).
  eexists. split; [reflexivity|]. split.
  - rewrite length_app, !enc_pairs_length;
      rewrite ?length_firstn, ?length_skipn, !digits_length; reflexivity.
  - apply Forall_app. split; apply enc_pairs_trits;
      apply Forall_firstn_skipn, digits3_trits.
Qed.

Lemma encode_shape_witness :
  exists code,
    encode (-7) (-1) = Ok code /\ length code = 40%nat /\ Forall trit code.
Proof. apply (encode_shape (-7) (-1)); lia. Defined.

Lemma v1_code_round_trip (rolling fixed : Z) :
  rolling < 2 ^ 32 -> 0 <= fixed < 3 ^ 20 ->
  exists code,
    encode rolling fixed = Ok code /\
    decode code = Ok (Z.land rolling 0xfffffffe, fixed).
Proof.
  intros Hr Hf. rewrite (encode_pairs rolling fixed Hr) by lia.
  eexists. split; [reflexivity|].
  destruct (land_mask_range rolling) as [Hm He].
  remember (Z.land rolling 0xfffffffe) as masked eqn:Em.
  pose proof (reversed_even 31 masked He) as Hx.
  change (Z.of_nat 31) with 31 in Hx.
  pose proof (reversed_involutive 32 masked Hm) as Hi.
  remember (reversed 32 masked) as x eqn:Ex.
  rewrite decode_enc_pairs
    by first [apply digits_length | apply digits3_trits].
  rewrite !of_digits_digits by (change (Z.of_nat 20) with 20; lia).
  rewrite (reverse_bits_reversed 32 x) by (change (Z.of_nat 32) with 32; lia).
  cbn [bind]. now rewrite Hi.
Qed.

(** X3: on rolling codes below 2^32 and fixed codes in [0, 3^20), [encode]
    returns the same for two inputs exactly when the fixed codes are equal
    and the rolling codes differ at most in bit 0. *)
Theorem encode_injective_up_to_bit_0 (rolling1 fixed1 rolling2 fixed2 : Z) :
  rolling1 < 2 ^ 32 -> rolling2 < 2 ^ 32 ->
  0 <= fixed1 < 3 ^ 20 -> 0 <= fixed2 < 3 ^ 20 ->
  encode rolling1 fixed1 = encode rolling2 fixed2 <->
  Z.land rolling1 0xfffffffe = Z.land rolling2 0xfffffffe /\ fixed1 = fixed2.
Proof.
  intros Hr1 Hr2 Hf1 Hf2. split.
  - intros E.
    destruct (v1_code_round_trip rolling1 fixed1 Hr1 Hf1) as (c1 & E1 & D1).
    destruct (v1_code_round_trip rolling2 fixed2 Hr2 Hf2) as (c2 & E2 & D2).
    rewrite E1, E2 in E. injection E as ->. rewrite D1 in D2.
    injection D2 as -> ->. split; reflexivity.
  - intros [Er ->].
    rewrite (encode_pairs rolling1 fixed2), (encode_pairs rolling2 fixed2)
      by lia.
    now rewrite Er.
Qed.

Lemma encode_injective_up_to_bit_0_witness :
  encode 6 5 = encode 7 5 /\ encode 6 5 <> encode 8 5.
Proof.
  assert (H67 := encode_injective_up_to_bit_0 6 5 7 5).
  assert (H68 := encode_injective_up_to_bit_0 6 5 8 5).
  split.
  - apply H67; try lia. split; reflexivity.
  - intros E. apply H68 in E; try lia. destruct E as [E _]. discriminate E.
Defined.

(** ** Security+ (v1): what [decode] returns *)

Lemma decode_firstn (code : list Z) : decode code = decode (firstn 40 code).
Proof.
  unfold decode.
  rewrite (for_each_ext (range 0 40 2) (decode_body (firstn 40 code))
             (decode_body code)); [reflexivity|].
  intros i Hi st. apply decode_body_firstn.
  vm_compute in Hi. intuition (subst; lia).
Qed.

Lemma pos_bin_bits (p : positive) :
  exists l, Forall bit l /\ l <> [] /\ pos_bin p = map bit_char l.
Proof.
  induction p as [q (l & Hl & _ & E) | q (l & Hl & _ & E) |]; simpl.
  - exists (l ++ [1]). rewrite E, map_app. repeat split.
    + apply Forall_app. split; [exact Hl|]. constructor; [now right | constructor].
    + now destruct l.
  - exists (l ++ [0]). rewrite E, map_app. repeat split.
    + apply Forall_app. split; [exact Hl|]. constructor; [now left | constructor].
    + now destruct l.
  - exists [1]. repeat split; [|discriminate].
    constructor; [now right | constructor].
Qed.

Lemma zfill_bits (w : nat) (l : list Z) :
  Forall bit l -> l <> [] ->
  exists l', Forall bit l' /\ l' <> [] /\ zfill w (map bit_char l) = map bit_char l'.
Proof.
  intros Hl Hne. exists (repeat 0 (w - length (map bit_char l)) ++ l).
  unfold zfill. rewrite map_app, bit_char_zeros. repeat split.
  - apply Forall_app. split; [|exact Hl].
    apply Forall_forall. intros x Hx. apply repeat_spec in Hx. now left.
  - intros E. apply app_eq_nil in E. now destruct E.
Qed.

Lemma format_b_nonneg (w : nat) (n : Z) :
  0 <= n ->
  exists l, Forall bit l /\ l <> [] /\ format_b w n = map bit_char l.
Proof.
  intros Hn. destruct n as [|p|p]; [| |lia]; simpl format_b.
  - apply (zfill_bits w [0]); [|discriminate].
    constructor; [now left | constructor].
  - destruct (pos_bin_bits p) as (l & Hl & Hne & ->). now apply zfill_bits.
Qed.

Lemma reverse_bits_nonneg (w : nat) (n : Z) :
  0 <= n -> exists r, reverse_bits w n = Ok r /\ 0 <= r.
Proof.
  intros Hn. destruct (format_b_nonneg w n Hn) as (l & Hl & Hne & E).
  unfold reverse_bits. rewrite E, <- map_rev.
  rewrite int_base2_bits.
  - eexists. split; [reflexivity|].
    apply (of_digits_range 2 (rev l)); [lia|].
    apply Forall_rev. eapply Forall_impl; [|exact Hl].
    intros d. apply bit_range.
  - now apply Forall_rev.
  - intros E'. apply (f_equal (@rev Z)) in E'.
    rewrite rev_involutive in E'. contradiction.
Qed.

Lemma parse_bin_minus (l : list Z) : Forall bit l -> forall acc,
  parse_bin (map bit_char l ++ ["-"%char]) acc = None.
Proof.
  induction 1 as [|d l [-> | ->] _ IH]; intros acc; simpl; auto.
Qed.

Lemma reverse_bits_negative (w : nat) (n : Z) :
  n < 0 -> reverse_bits w n = Raise invalid_literal.
Proof.
  intros Hn. destruct n as [|p|p]; [lia | lia |].
  unfold reverse_bits. simpl format_b.
  destruct (pos_bin_bits p) as (l0 & Hl0 & Hne0 & ->).
  destruct (zfill_bits (w - 1) l0 Hl0 Hne0) as (l & Hl & Hne & ->).
  simpl rev. rewrite <- map_rev.
  assert (Hr : Forall bit (rev l)) by now apply Forall_rev.
  destruct (rev l) as [|d m] eqn:Er.
  - apply (f_equal (@rev Z)) in Er. rewrite rev_involutive in Er.
    contradiction.
  - unfold int_base2. cbn [map app].
    replace (Ascii.eqb (bit_char d) "-") with false
      by (inversion_clear Hr as [|? ? [-> | ->] _]; reflexivity).
    change (bit_char d :: map bit_char m ++ ["-"%char])
      with (map bit_char (d :: m) ++ ["-"%char]).
    now rewrite parse_bin_minus.
Qed.

Lemma dec_pairs_spec (m : nat) : forall (code : list Z) (R F A n : Z),
  length code = (2 * m)%nat -> 0 <= n -> 0 <= F < 3 ^ n ->
  exists F' A',
    dec_pairs code (R, F, A)
    = (fold_left (fun a d => a * 3 + d) (slice_step code 0 2) R, F', A') /\
    0 <= F' < 3 ^ (n + Z.of_nat m).
Proof.
  unfold slice_step.
  induction m as [|m IH]; intros code R F A n Hlen Hn HF.
  - destruct code; [|discriminate Hlen]. exists F, A.
    split; [reflexivity|]. now rewrite Z.add_0_r.
  - destruct code as [|r [|c code]]; try (simpl in Hlen; lia).
    cbn [dec_pairs every Nat.sub fold_left].
    destruct (IH code (R * 3 + r) (F * 3 + (c - (A + r)) mod 3)
                (A + r + (c - (A + r)) mod 3) (n + 1))
      as (F' & A' & E & HF'); [simpl in Hlen; lia | lia | |].
    + pose proof (Z.mod_pos_bound (c - (A + r)) 3).
      rewrite Z.pow_add_r, Z.pow_1_r by lia. lia.
    + exists F', A'. split; [exact E|].
      replace (n + Z.of_nat (S m)) with (n + 1 + Z.of_nat m) by lia.
      exact HF'.
Qed.

Lemma every2_app (m : nat) : forall l1 l2 : list Z,
  length l1 = (2 * m)%nat ->
  slice_step (l1 ++ l2) 0 2 = slice_step l1 0 2 ++ slice_step l2 0 2.
Proof.
  unfold slice_step.
  induction m as [|m IH]; intros l1 l2 Hlen.
  - now destruct l1.
  - destruct l1 as [|a [|b l1]]; try (simpl in Hlen; lia).
    cbn [app every Nat.sub]. rewrite IH by (simpl in Hlen; lia). reflexivity.
Qed.

Lemma every2_Forall (P : Z -> Prop) (l : list Z) : forall k,
  Forall P l -> Forall P (every 2 k l).
Proof.
  induction l as [|x l IH]; intros k H; simpl; [constructor|].
  inversion_clear H. destruct k; [constructor|]; auto.
Qed.

Lemma decode_loop_spec (code : list Z) :
  length code = 40%nat ->
  exists fixed acc,
    for_each (range 0 40 2) (decode_body code) (0, 0, 0)
    = Ok (fold_left (fun a d => a * 3 + d) (slice_step code 0 2) 0,
          fixed, acc) /\
    0 <= fixed < 3 ^ 20.
Proof.
  intros Hlen. rewrite (decode_loop code Hlen).
  destruct (dec_pairs_spec 10 (firstn 20 code) 0 0 0 0)
    as (F1 & A1 & E1 & H1); [rewrite length_firstn; lia | lia | lia |].
  rewrite E1. unfold reset_acc.
  destruct (dec_pairs_spec 10 (skipn 20 code)
              (fold_left (fun a d => a * 3 + d)
                 (slice_step (firstn 20 code) 0 2) 0) F1 0 10)
    as (F2 & A2 & E2 & H2); [rewrite length_skipn; lia | lia | exact H1 |].
  rewrite E2, <- fold_left_app, <- (every2_app 10)
    by (rewrite length_firstn; lia).
  rewrite firstn_skipn. exists F2, A2. split; [reflexivity | exact H2].
Qed.

(** X4: on a list of at least 40 entries [decode] fails exactly when the
    base-3 number read off the entries at the even positions 0, 2, .., 38
    is negative, and then with the [ValueError] of [int()]; otherwise it
    returns a non-negative rolling code and a fixed code in [0, 3^20),
    whatever the values of the entries. *)
Theorem decode_long_inputs (code : list Z) :
  (40 <= length code)%nat ->
  let v :=
    fold_left (fun a d => a * 3 + d) (slice_step (firstn 40 code) 0 2) 0 in
  (v < 0 -> decode code = Raise invalid_literal) /\
  (0 <= v ->
   exists rolling fixed,
     decode code = Ok (rolling, fixed) /\ 0 <= rolling /\
     0 <= fixed < 3 ^ 20).
Proof.
  intros Hlen v. rewrite decode_firstn. unfold decode.
  destruct (decode_loop_spec (firstn 40 code)) as (F & A & -> & HF);
    [rewrite length_firstn; lia|].
  fold v. cbn [bind]. split.
  - intros Hv. now rewrite reverse_bits_negative.
  - intros Hv. destruct (reverse_bits_nonneg 32 v Hv) as (r & -> & Hr).
    cbn [bind]. now exists r, F.
Qed.

Lemma decode_long_inputs_witness :
  decode (-1 :: repeat 0 40) = Raise invalid_literal /\
  exists rolling fixed,
    decode (repeat 7 41) = Ok (rolling, fixed) /\ 0 <= rolling /\
    0 <= fixed < 3 ^ 20.
Proof.
  split.
  - destruct (decode_long_inputs (-1 :: repeat 0 40)) as [H _];
      [simpl; lia|].
    apply H. vm_compute. reflexivity.
  - destruct (decode_long_inputs (repeat 7 41)) as [_ H]; [simpl; lia|].
    apply H. vm_compute. discriminate.
Defined.

(** X5: on a list whose first 40 entries are ternary digits [decode] does
    not fail, and returns a rolling code in [0, 2^32) and a fixed code in
    [0, 3^20), which [encode] accepts. *)
Theorem decode_ternary_code (code : list Z) :
  (40 <= length code)%nat -> Forall trit (firstn 40 code) ->
  exists rolling fixed,
    decode code = Ok (rolling, fixed) /\
    0 <= rolling < 2 ^ 32 /\ 0 <= fixed < 3 ^ 20.
Proof.
  intros Hlen Ht. rewrite decode_firstn. unfold decode.
  destruct (decode_loop_spec (firstn 40 code)) as (F & A & -> & HF);
    [rewrite length_firstn; lia|].
  cbn [bind].
  remember (slice_step (firstn 40 code) 0 2) as rs eqn:Ers.
  assert (Hrs : Forall (fun d => 0 <= d < 3) rs).
  { subst rs. apply every2_Forall.
    eapply Forall_impl; [|exact Ht]. intros d. apply trit_range. }
  pose proof (of_digits_range 3 rs eq_refl Hrs) as Hv.
  assert (Hl : (length rs <= 20)%nat).
  { subst rs. unfold slice_step.
    assert (H40 : length (firstn 40 code) = 40%nat)
      by (rewrite length_firstn; lia).
    remember (firstn 40 code) as c eqn:Ec. clear - H40.
    do 40 (destruct c as [|? c]; [discriminate H40|]).
    destruct c; [simpl; lia | discriminate H40]. }
  rewrite (proj2 (fold_base3 rs 0 (of_digits 3 rs)) eq_refl).
  assert (Hb : 0 <= of_digits 3 rs < 2 ^ 32).
  { split; [lia|]. apply Z.lt_le_trans with (3 ^ Z.of_nat (length rs)); [lia|].
    apply Z.le_trans with (3 ^ 20); [|lia].
    apply Z.pow_le_mono_r; lia. }
  rewrite reverse_bits_reversed by (change (Z.of_nat 32) with 32; lia).
  cbn [bind]. do 2 eexists. split; [reflexivity|]. split; [|exact HF].
  apply (reversed_range 32).
Qed.

Lemma decode_ternary_code_witness :
  exists rolling fixed,
    decode (repeat 2 40) = Ok (rolling, fixed) /\
    0 <= rolling < 2 ^ 32 /\ 0 <= fixed < 3 ^ 20.
Proof.
  apply (decode_ternary_code (repeat 2 40)); [simpl; lia|].
  simpl. repeat (apply Forall_cons; [right; right; reflexivity|]).
  apply Forall_nil.
Defined.

(** ** Security+ (v1): the on-off keying stream *)

Lemma ook_pattern_spec (s : Z) :
  ook_symbol s ->
  dict_get _OOK s = Ok (ook_pattern s) /\
  length (ook_pattern s) = 4%nat /\ Forall bit (ook_pattern s).
Proof.
  unfold ook_symbol. intros H.
  assert (E : s = -1 \/ s = 0 \/ s = 1 \/ s = 2) by lia.
  destruct E as [-> | [-> | [-> | ->]]];
    (split; [reflexivity|]; split; [reflexivity|]);
    repeat (apply Forall_cons; [unfold bit; auto|]); apply Forall_nil.
Qed.

Lemma ook_loop (symbols : list Z) :
  Forall ook_symbol symbols ->
  forall ook_bits,
    for_each symbols ook_body ook_bits
    = Ok (ook_bits ++ flat_map ook_pattern symbols).
Proof.
  induction 1 as [|s symbols Hs _ IH]; intros ook_bits; cbn [for_each flat_map].
  - now rewrite app_nil_r.
  - unfold ook_body at 1.
    destruct (ook_pattern_spec s Hs) as (-> & _ & _). cbn [bind].
    rewrite IH. now rewrite <- app_assoc.
Qed.

Lemma ook_stream_shape (symbols : list Z) :
  Forall ook_symbol symbols ->
  length (flat_map ook_pattern symbols) = (4 * length symbols)%nat /\
  Forall bit (flat_map ook_pattern symbols).
Proof.
  induction 1 as [|s symbols Hs _ [IHl IHb]]; cbn [flat_map length].
  - split; [reflexivity | constructor].
  - destruct (ook_pattern_spec s Hs) as (_ & Hl & Hb). split.
    + rewrite length_app, Hl, IHl. lia.
    + apply Forall_app. now split.
Qed.

Lemma ook_blank (n : nat) : Forall ook_symbol (repeat (-1) n).
Proof.
  apply Forall_forall. intros x Hx. apply repeat_spec in Hx. subst x.
  unfold ook_symbol. lia.
Qed.

Lemma ook_blank_zeros (n : nat) :
  flat_map ook_pattern (repeat (-1) n) = repeat 0 (4 * n).
Proof.
  induction n as [|n IH]; [reflexivity|].
  replace (4 * S n)%nat with (4 + 4 * n)%nat by lia.
  cbn [repeat flat_map]. rewrite IH. reflexivity.
Qed.

(** X6: for a rolling code below 2^32 and a fixed code below 3^20
    [encode_ook] does not fail (no symbol misses from [_OOK]); its stream is
    the pattern 0001 of the first start symbol, four bits for each of the
    first 20 symbols of [encode], a silence of 40 zeros ([fast]) or 116
    zeros, the pattern 0111 of the second start symbol, four bits for each
    of the last 20 symbols and the silence again: 248 or 400 bits. *)
Theorem encode_ook_stream (rolling fixed : Z) (fast : bool) :
  rolling < 2 ^ 32 -> fixed < 3 ^ 20 ->
  let gap := (if fast then 10 else 29)%nat in
  exists code ook_bits,
    encode rolling fixed = Ok code /\
    encode_ook rolling fixed fast = Ok ook_bits /\
    ook_bits
    = [0; 0; 0; 1] ++ flat_map ook_pattern (firstn 20 code)
        ++ repeat 0 (4 * gap)
        ++ [0; 1; 1; 1] ++ flat_map ook_pattern (skipn 20 code)
        ++ repeat 0 (4 * gap) /\
    length ook_bits = (4 * (42 + 2 * gap))%nat /\
    Forall bit ook_bits.
Proof.
  intros Hr Hf gap.
  destruct (encode_trits rolling fixed Hr Hf) as (code & He & Hlen & Ht).
  assert (Ho : Forall ook_symbol code).
  { eapply Forall_impl; [|exact Ht]. unfold trit, ook_symbol. lia. }
  destruct (Forall_firstn_skipn ook_symbol 20 code Ho) as [Ho1 Ho2].
  assert (S1 : slice code 0 20 = firstn 20 code) by reflexivity.
  assert (S2 : slice code 20 40 = skipn 20 code).
  { unfold slice. change (40 - 20)%nat with 20%nat.
    apply firstn_all2. rewrite length_skipn. lia. }
  unfold encode_ook. rewrite He. cbn [bind]. fold gap. rewrite S1, S2.
  assert (Hs : Forall ook_symbol
                 ([0] ++ firstn 20 code ++ repeat (-1) gap ++ [2]
                    ++ skipn 20 code ++ repeat (-1) gap)).
  { repeat (apply Forall_app; split);
      try assumption; try apply ook_blank;
      (constructor; [unfold ook_symbol; lia | constructor]). }
  rewrite (ook_loop _ Hs []).
  destruct (ook_stream_shape _ Hs) as [Hl Hb].
  assert (E : flat_map ook_pattern
                ([0] ++ firstn 20 code ++ repeat (-1) gap ++ [2]
                   ++ skipn 20 code ++ repeat (-1) gap)
              = [0; 0; 0; 1] ++ flat_map ook_pattern (firstn 20 code)
                  ++ repeat 0 (4 * gap)
                  ++ [0; 1; 1; 1] ++ flat_map ook_pattern (skipn 20 code)
                  ++ repeat 0 (4 * gap)).
  { rewrite !flat_map_app, !ook_blank_zeros. reflexivity. }
  rewrite E in Hl, Hb. rewrite E.
  exists code. eexists. split; [reflexivity|]. split; [reflexivity|].
  split; [reflexivity|]. split; [|exact Hb].
  etransitivity; [exact Hl|]. rewrite !length_app. cbn [length].
  rewrite length_firstn, length_skipn, !repeat_length, Hlen. lia.
Qed.

Lemma encode_ook_stream_witness :
  exists code ook_bits,
    encode 123456789 1000 = Ok code /\
    encode_ook 123456789 1000 true = Ok ook_bits /\
    ook_bits
    = [0; 0; 0; 1] ++ flat_map ook_pattern (firstn 20 code)
        ++ repeat 0 (4 * 10)
        ++ [0; 1; 1; 1] ++ flat_map ook_pattern (skipn 20 code)
        ++ repeat 0 (4 * 10) /\
    length ook_bits = (4 * (42 + 2 * 10))%nat /\
    Forall bit ook_bits.
Proof. apply (encode_ook_stream 123456789 1000 true); lia. Defined.

(** ** Security+ 2.0: range errors of the encoders *)

Ltac inv_step H :=
  match type of H with
  | bind ?m _ = Ok _ =>
      let E := fresh "E" in
      destruct m eqn:E; cbn [bind] in H; [|discriminate H]
  | (if ?c then _ else _) = Ok _ =>
      let E := fresh "E" in destruct c eqn:E; try discriminate H
  | Raise _ = Ok _ => discriminate H
  end.

Lemma geb_true (n m : Z) : m <= n -> (n >=? m) = true.
Proof. intros H. rewrite Z.geb_leb. apply Z.leb_le. exact H. Qed.

(** X7: [encode_v2], [encode_v2_manchester] and [encode_wireline] raise the
    error of [_v2_check_limits] before anything else: the rolling-code error
    for a rolling code of 2^28 or more, else the fixed-code error for a
    fixed code of 2^40 or more, else the data error for data of 2^32 or
    more. *)
Theorem v2_range_errors (rolling fixed : Z) (data : option Z) :
  forall msg : string,
    (2 ^ 28 <= rolling /\ msg = "Rolling code must be less than 2^28"%string)
    \/ (rolling < 2 ^ 28 /\ 2 ^ 40 <= fixed /\
        msg = "Fixed code must be less than 2^40"%string)
    \/ (rolling < 2 ^ 28 /\ fixed < 2 ^ 40 /\
        (exists d, data = Some d /\ 2 ^ 32 <= d) /\
        msg = "Data must be less than 2^32"%string) ->
    encode_v2 rolling fixed data = Raise (ValueError msg) /\
    encode_v2_manchester rolling fixed data = Raise (ValueError msg) /\
    (forall d, data = Some d ->
               encode_wireline rolling fixed d = Raise (ValueError msg)).
Proof.
  intros msg H.
  assert (Hc : _v2_check_limits rolling fixed data = Raise (ValueError msg)).
  { unfold _v2_check_limits.
    destruct H as [[Hr ->] | [(Hr & Hf & ->) | (Hr & Hf & (d & -> & Hd) & ->)]].
    - now rewrite geb_true.
    - rewrite (geb_false rolling) by exact Hr. now rewrite geb_true.
    - rewrite (geb_false rolling), (geb_false fixed) by assumption.
      now rewrite geb_true. }
  assert (He : encode_v2 rolling fixed data = Raise (ValueError msg)).
  { unfold encode_v2. now rewrite Hc. }
  split; [exact He|]. split.
  - unfold encode_v2_manchester. now rewrite He.
  - intros d ->. unfold encode_wireline. now rewrite Hc.
Qed.

Lemma v2_range_errors_witness :
  encode_v2 (2 ^ 28) (2 ^ 40) (Some (2 ^ 32))
    = Raise (ValueError "Rolling code must be less than 2^28") /\
  encode_wireline 0 0 (2 ^ 32)
    = Raise (ValueError "Data must be less than 2^32").
Proof.
  split.
  - apply (v2_range_errors (2 ^ 28) (2 ^ 40) (Some (2 ^ 32))).
    left. split; [lia | reflexivity].
  - apply (v2_range_errors 0 0 (Some (2 ^ 32))); [|reflexivity].
    right. right. split; [lia|]. split; [lia|].
    split; [|reflexivity]. exists (2 ^ 32). split; [reflexivity | lia].
Defined.

(** ** Security+ 2.0: what [decode_v2] accepts *)

Lemma decode_v2_half_parts_inv (packet_type : Z) (indicator payload : list Z)
  (rolling fixed : list Z) (data : option (list Z)) :
  _decode_v2_half_parts packet_type indicator payload
  = Ok (rolling, fixed, data) ->
  exists parts ra rolling_all p0 p1 p2,
    _v2_unscramble indicator payload = Ok parts /\
    getitem parts 0 = Ok p0 /\ getitem parts 1 = Ok p1 /\
    getitem parts 2 = Ok p2 /\
    append_pairs indicator [] = Ok ra /\
    append_pairs p2 ra = Ok rolling_all /\
    existsb (Z.eqb 3) rolling_all = false /\
    fixed = firstn 10 p0 ++ firstn 10 p1 /\
    ((packet_type = 0 /\ length payload = 30%nat /\
      rolling = rolling_all /\ data = None) \/
     (packet_type = 1 /\ length payload = 54%nat /\
      list_eqb (firstn 4 rolling_all) (last_k rolling_all 4) = true /\
      rolling = drop_last_k rolling_all 4 /\
      data = Some (skipn 10 p0 ++ skipn 10 p1))).
Proof.
  unfold _decode_v2_half_parts. intros H.
  inv_step H. inv_step H. apply negb_false_iff, Nat.eqb_eq in E0.
  inv_step H. inv_step H. inv_step H. inv_step H. inv_step H.
  inv_step H. inv_step H.
  exists a0, a1, a3, a4, a5, a2.
  repeat (split; [assumption || reflexivity|]).
  destruct (packet_type =? 0) eqn:E0'.
  - apply Z.eqb_eq in E0'. injection E as <-. injection H as <- <- <-.
    split; [reflexivity|]. left. auto.
  - destruct (packet_type =? 1) eqn:E1'; [|destruct (packet_type =? 2); discriminate E].
    apply Z.eqb_eq in E1'. injection E as <-.
    inv_step H. apply negb_false_iff in E. injection H as <- <- <-.
    split; [reflexivity|]. right. auto.
Qed.

Lemma decode_v2_half_inv (code rolling fixed : list Z)
  (data : option (list Z)) :
  _decode_v2_half code = Ok (rolling, fixed, data) ->
  exists c0 c1 rest,
    code = c0 :: c1 :: rest /\
    _decode_v2_half_parts (Z.lor (Z.shiftl c0 1) c1) (firstn 8 rest)
      (skipn 8 rest) = Ok (rolling, fixed, data).
Proof.
  destruct code as [|c0 [|c1 rest]]; try discriminate.
  unfold _decode_v2_half, slice. cbn [getitem nth_error bind].
  rewrite !skipn_cons, skipn_O. change (10 - 2)%nat with 8%nat.
  intros H. now exists c0, c1, rest.
Qed.

Lemma decode_v2_half_length (code rolling fixed : list Z)
  (data : option (list Z)) :
  _decode_v2_half code = Ok (rolling, fixed, data) ->
  (length code = 40%nat /\ data = None) \/
  (length code = 64%nat /\ exists d, data = Some d).
Proof.
  intros H. apply decode_v2_half_inv in H as (c0 & c1 & rest & -> & H).
  apply decode_v2_half_parts_inv in H
    as (parts & ra & rolling_all & p0 & p1 & p2 & _ & _ & _ & _ & _ & _ & _
        & _ & [(_ & Hl & _ & ->) | (_ & Hl & _ & _ & ->)]);
    rewrite length_skipn in Hl; cbn [length]; [left | right];
    (split; [lia | eauto]).
Qed.

Lemma decode_v2_inv (code : list Z) (rolling fixed : Z) (data : option Z) :
  decode_v2 code = Ok (rolling, fixed, data) ->
  let half_len := (length code / 2)%nat in
  exists rolling1 fixed1 data1 rolling2 fixed2 data2,
    _decode_v2_half (firstn half_len code) = Ok (rolling1, fixed1, data1) /\
    _decode_v2_half (skipn half_len code) = Ok (rolling2, fixed2, data2) /\
    _decode_v2_rolling rolling1 rolling2 = Ok rolling /\
    int_of_bits (fixed1 ++ fixed2) = Ok fixed /\
    ((data1 = None /\ data = None) \/
     (exists d1 d2 d,
         data1 = Some d1 /\ data2 = Some d2 /\
         int_of_bits (d1 ++ d2) = Ok d /\ data = Some d)).
Proof.
  unfold decode_v2. cbv zeta. intros H.
  inv_step H. destruct a as [[rolling1 fixed1] data1].
  inv_step H. destruct a as [[rolling2 fixed2] data2].
  inv_step H. inv_step H.
  exists rolling1, fixed1, data1, rolling2, fixed2, data2.
  destruct data1 as [d1|]; [destruct data2 as [d2|]; [|discriminate H]|].
  - inv_step H. injection H as <- <- <-.
    repeat (split; [first [reflexivity | assumption]|]).
    right. now exists d1, d2, a1.
  - injection H as <- <- <-.
    repeat (split; [first [reflexivity | assumption]|]). now left.
Qed.

(** X9: [decode_v2] returns a result only on a list of exactly 80 entries,
    then without data, or of exactly 128 entries, then with data. *)
Theorem decode_v2_accepted_lengths (code : list Z) (rolling fixed : Z)
  (data : option Z) :
  decode_v2 code = Ok (rolling, fixed, data) ->
  (length code = 80%nat /\ data = None) \/
  (length code = 128%nat /\ exists d, data = Some d).
Proof.
  intros H.
  apply decode_v2_inv in H
    as (r1 & f1 & d1 & r2 & f2 & d2 & H1 & H2 & _ & _ & Hd).
  apply decode_v2_half_length in H1, H2.
  rewrite length_firstn in H1. rewrite length_skipn in H2.
  pose proof (Nat.div_mod_eq (length code) 2) as Hdm.
  pose proof (Nat.mod_upper_bound (length code) 2) as Hm.
  destruct H1 as [[L1 ->] | [L1 (x1 & ->)]],
      H2 as [[L2 E2] | [L2 (x2 & E2)]],
      Hd as [[E1 ->] | (y1 & y2 & y & E1 & _ & _ & ->)];
    try discriminate E1; try lia;
    [left | right]; (split; [lia | eauto]).
Qed.

Lemma decode_v2_accepted_lengths_witness :
  (length sample_code_v2 = 80%nat /\ @None Z = None) \/
  (length sample_code_v2 = 128%nat /\ exists d, @None Z = Some d).
Proof.
  apply (decode_v2_accepted_lengths sample_code_v2 123456 78901234567 None).
  vm_compute. reflexivity.
Defined.

(** X10: on a list of fewer than 4 entries [decode_v2] raises an
    [IndexError], not the [ValueError] its docstring announces for invalid
    payload bits. *)
Theorem decode_v2_short (code : list Z) :
  (length code < 4)%nat -> decode_v2 code = Raise IndexError.
Proof.
  intros H.
  do 4 (destruct code as [|? code]; [reflexivity|]).
  simpl in H. lia.
Qed.

Lemma decode_v2_short_witness : decode_v2 [0; 1; 0] = Raise IndexError.
Proof. apply (decode_v2_short [0; 1; 0]). simpl. lia. Defined.

(** X11: on a list of at least 4 entries the first two entries decide the
    first check of [decode_v2]: packet type 2 is reported as unsupported,
    any type other than 0, 1 and 2 as invalid, and with type 0 (type 1) a
    half of other than 40 (64) entries as an incorrect payload length; a
    code of 79 entries of type 0 is such a case. *)
Theorem decode_v2_first_checks (c0 c1 : Z) (rest : list Z) :
  let code := c0 :: c1 :: rest in
  let packet_type := Z.lor (Z.shiftl c0 1) c1 in
  let half_len := (length code / 2)%nat in
  (4 <= length code)%nat ->
  (packet_type = 2 ->
   decode_v2 code = Raise (ValueError "Unsupported packet type")) /\
  (packet_type <> 0 -> packet_type <> 1 -> packet_type <> 2 ->
   decode_v2 code = Raise (ValueError "Invalid packet type")) /\
  ((packet_type = 0 /\ half_len <> 40%nat) \/
   (packet_type = 1 /\ half_len <> 64%nat) ->
   decode_v2 code = Raise (ValueError "Incorrect payload length")).
Proof.
  intros code packet_type half_len Hlen.
  assert (Hh : (2 <= half_len)%nat).
  { unfold half_len. apply Nat.div_le_lower_bound; lia. }
  assert (Hhl : (half_len <= length code)%nat).
  { unfold half_len. apply Nat.Div0.div_le_upper_bound. lia. }
  assert (E : _decode_v2_half (firstn half_len code)
              = _decode_v2_half_parts packet_type
                  (slice (firstn half_len code) 2 10)
                  (skipn 10 (firstn half_len code))).
  { unfold _decode_v2_half, code.
    destruct half_len as [|[|n]]; [lia | lia |]. reflexivity. }
  assert (Hp : length (skipn 10 (firstn half_len code))
               = (half_len - 10)%nat).
  { rewrite length_skipn, length_firstn. lia. }
  unfold decode_v2. fold half_len. rewrite E. unfold _decode_v2_half_parts.
  split; [|split].
  - intros ->. reflexivity.
  - intros H0 H1 H2.
    apply Z.eqb_neq in H0, H1, H2. rewrite H0, H1, H2. reflexivity.
  - intros [[-> Hn] | [-> Hn]].
    + change (0 =? 0) with true. cbn [bind]. rewrite Hp.
      replace (half_len - 10 =? 30)%nat with false
        by (symmetry; apply Nat.eqb_neq; lia).
      reflexivity.
    + change (1 =? 0) with false. change (1 =? 1) with true.
      cbn [bind]. rewrite Hp.
      replace (half_len - 10 =? 54)%nat with false
        by (symmetry; apply Nat.eqb_neq; lia).
      reflexivity.
Qed.

Lemma decode_v2_first_checks_witness :
  decode_v2 (1 :: 0 :: repeat 0 78)
    = Raise (ValueError "Unsupported packet type") /\
  decode_v2 (1 :: 1 :: repeat 0 78)
    = Raise (ValueError "Invalid packet type") /\
  decode_v2 (0 :: 0 :: repeat 0 77)
    = Raise (ValueError "Incorrect payload length").
Proof.
  split; [|split].
  - apply (decode_v2_first_checks 1 0 (repeat 0 78));
      [simpl; lia | reflexivity].
  - apply (decode_v2_first_checks 1 1 (repeat 0 78));
      [simpl; lia | discriminate ..].
  - apply (decode_v2_first_checks 0 0 (repeat 0 77)); [simpl; lia|].
    left. split; [reflexivity | discriminate].
Defined.

(** ** Security+ 2.0: from a decoded code back to the code *)

Lemma getitem_bit_pairs (k : nat) : forall (bits : list Z) (d : Z),
  nth_error (bit_pairs bits) k = Some d ->
  exists hi lo,
    getitem bits (0 + k * 2) = Ok hi /\
    getitem bits (0 + k * 2 + 1) = Ok lo /\
    d = Z.lor (Z.shiftl hi 1) lo.
Proof.
  induction k as [|k IH]; intros [|hi [|lo bits]] d; simpl; try discriminate.
  - intros [= <-]. now exists hi, lo.
  - intros H. apply (IH bits d H).
Qed.

Lemma bit_pairs_length (n : nat) : forall bits : list Z,
  length bits = (2 * n)%nat -> length (bit_pairs bits) = n.
Proof.
  induction n as [|n IH]; intros [|hi [|lo bits]] H; simpl in *;
    try lia.
  rewrite IH; lia.
Qed.

Lemma append_pairs_from_bits (bits : list Z) :
  forall (n k : nat) (rolling : list Z),
    (k + n = length (bit_pairs bits))%nat ->
    for_each (map (fun j => (0 + j * 2)%nat) (seq k n))
      (fun rolling i =>
         hi <- getitem bits i ;;
         lo <- getitem bits (i + 1) ;;
         Ok (rolling ++ [Z.lor (Z.shiftl hi 1) lo]))
      rolling
    = Ok (rolling ++ skipn k (bit_pairs bits)).
Proof.
  induction n as [|n IH]; intros k rolling Hk.
  - simpl. rewrite skipn_all2 by lia. now rewrite app_nil_r.
  - destruct (getitem_skipn (bit_pairs bits) k) as (d & Hd & Hs); [lia|].
    unfold getitem in Hd.
    destruct (nth_error (bit_pairs bits) k) as [d'|] eqn:En;
      [injection Hd as ->|discriminate].
    destruct (getitem_bit_pairs k bits d En) as (hi & lo & Hhi & Hlo & ->).
    cbn [seq map for_each]. rewrite Hhi, Hlo. cbn [bind].
    rewrite IH by lia. rewrite Hs, <- app_assoc. reflexivity.
Qed.

Lemma append_pairs_even (n : nat) (bits rolling : list Z) :
  length bits = (2 * n)%nat ->
  append_pairs bits rolling = Ok (rolling ++ bit_pairs bits).
Proof.
  intros H. unfold append_pairs. rewrite H, range_pairs.
  apply (append_pairs_from_bits bits n 0 rolling).
  now rewrite (bit_pairs_length n).
Qed.

Lemma bit_pairs_digits (n : nat) : forall bits : list Z,
  length bits = (2 * n)%nat -> Forall bit bits ->
  digit_bits (bit_pairs bits) = bits /\
  Forall (fun d => 0 <= d <= 3) (bit_pairs bits).
Proof.
  induction n as [|n IH]; intros [|hi [|lo bits]] H Hb; simpl in H;
    try lia.
  - split; [reflexivity | constructor].
  - inversion_clear Hb as [|? ? Hhi Hb']. inversion_clear Hb' as [|? ? Hlo Hb].
    destruct (IH bits) as [E Hq]; [lia | exact Hb |].
    cbn [bit_pairs digit_bits flat_map]. fold (digit_bits (bit_pairs bits)).
    rewrite E. destruct Hhi as [-> | ->], Hlo as [-> | ->]; cbn;
      (split; [reflexivity | constructor; [lia | exact Hq]]).
Qed.

Lemma quads_without_three (ds : list Z) :
  Forall (fun d => 0 <= d <= 3) ds -> existsb (Z.eqb 3) ds = false ->
  Forall trit ds.
Proof.
  induction 1 as [|d ds Hd _ IH]; cbn [existsb]; [constructor|].
  intros H. apply orb_false_iff in H as [H3 H].
  apply Z.eqb_neq in H3. constructor; [unfold trit; lia | now apply IH].
Qed.

Lemma list_eqb_eq (l1 : list Z) : forall l2,
  list_eqb l1 l2 = true -> l1 = l2.
Proof.
  induction l1 as [|x l1 IH]; intros [|y l2]; simpl; try discriminate;
    [reflexivity|].
  intros H. apply andb_true_iff in H as [Hx H].
  apply Z.eqb_eq in Hx. subst y. now rewrite (IH l2 H).
Qed.

Lemma every_Forall (P : Z -> Prop) (step : nat) (l : list Z) : forall k,
  Forall P l -> Forall P (every step k l).
Proof.
  induction l as [|x l IH]; intros k H; simpl; [constructor|].
  inversion_clear H. destruct k; [constructor|]; auto.
Qed.

Lemma unscramble_lookup (indicator payload : list Z)
  (parts : list (list Z)) :
  _v2_unscramble indicator payload = Ok parts ->
  exists order invert, lookup_tables indicator = Ok (order, invert).
Proof.
  unfold _v2_unscramble.
  destruct (lookup_tables indicator) as [[order invert]|e]; [eauto|].
  destruct e; discriminate.
Qed.

Lemma unscramble_bits (indicator payload : list Z) order invert :
  lookup_tables indicator = Ok (order, invert) ->
  Forall bit payload ->
  forall parts, _v2_unscramble indicator payload = Ok parts ->
                Forall (Forall bit) parts.
Proof.
  intros Hl Hb parts. unfold _v2_unscramble. rewrite Hl.
  apply lookup_tables_In in Hl as [Ho Hi].
  assert (exists b0 b1 b2, invert = [b0; b1; b2]) as (b0 & b1 & b2 & ->).
  { simpl in Hi. repeat (destruct Hi as [<-|Hi]; [eauto|]). contradiction. }
  clear Hi. simpl in Ho.
  assert (H0 : Forall bit (invert_if b0 (slice_step payload 0 3)))
    by now apply invert_if_bits, every_Forall.
  assert (H1 : Forall bit (invert_if b1 (slice_step payload 1 3)))
    by now apply invert_if_bits, every_Forall.
  assert (H2 : Forall bit (invert_if b2 (slice_step payload 2 3)))
    by now apply invert_if_bits, every_Forall.
  cbn [bind]. rewrite invert_loop.
  cbn [bind].
  repeat (destruct Ho as [<-|Ho]); try contradiction;
    cbn [for_each seq place_body getitem nth_error setitem bind];
    intros [= <-]; repeat constructor; assumption.
Qed.

Lemma half_parts_converse (packet_type : Z) (indicator payload : list Z)
  (rolling fixed : list Z) (data : option (list Z)) :
  Forall bit indicator -> length indicator = 8%nat -> Forall bit payload ->
  _decode_v2_half_parts packet_type indicator payload
  = Ok (rolling, fixed, data) ->
  length rolling = 9%nat /\ Forall trit rolling /\
  length fixed = 20%nat /\ Forall bit fixed /\
  ((packet_type = 0 /\ data = None) \/
   (packet_type = 1 /\
    exists d, data = Some d /\ length d = 16%nat /\ Forall bit d)) /\
  _encode_v2_half_parts rolling fixed data
  = Ok (packet_type, indicator, payload).
Proof.
  intros Bi Li Bp H.
  apply decode_v2_half_parts_inv in H
    as (parts & ra & rolling_all & p0 & p1 & p2 & Hu & G0 & G1 & G2
        & Ha & Hb & H3 & -> & Hcase).
  destruct (unscramble_lookup _ _ _ Hu) as (order & invert & Hl).
  pose proof (unscramble_bits _ _ _ _ Hl Bp parts Hu) as Bparts.
  assert (exists n, length payload = (3 * n)%nat /\ (n = 10 \/ n = 18)%nat)
    as (n & Hn & Hn').
  { destruct Hcase as [(_ & L & _) | (_ & L & _)];
      [exists 10%nat | exists 18%nat]; rewrite L; auto. }
  destruct (unscramble_scramble indicator order invert n payload Hl Hn)
    as (q0 & q1 & q2 & Hu' & Hs & L0 & L1 & L2).
  rewrite Hu in Hu'. injection Hu' as ->.
  cbn [getitem nth_error] in G0, G1, G2.
  injection G0 as <-. injection G1 as <-. injection G2 as <-.
  inversion_clear Bparts as [|? ? B0 Bparts'].
  inversion_clear Bparts' as [|? ? B1 Bparts''].
  inversion_clear Bparts'' as [|? ? B2 _].
  rewrite (append_pairs_even 4) in Ha by (rewrite Li; reflexivity).
  injection Ha as <-. cbn [app] in Hb.
  destruct (bit_pairs_digits 4 indicator) as [Ei Qi];
    [rewrite Li; reflexivity | assumption |].
  pose proof (bit_pairs_length 4 indicator) as Lbi.
  specialize (Lbi ltac:(rewrite Li; reflexivity)).
  destruct (Forall_firstn_skipn bit 10 q0 B0) as [B00 B01].
  destruct (Forall_firstn_skipn bit 10 q1 B1) as [B10 B11].
  destruct Hcase as [(-> & Lp & -> & ->) | (-> & Lp & Heq & -> & ->)].
  - assert (K0 : length q0 = 10%nat) by lia.
    assert (K1 : length q1 = 10%nat) by lia.
    assert (K2 : length q2 = 10%nat) by lia.
    clear L0 L1 L2 Hn Hn' n. rename K0 into L0, K1 into L1, K2 into L2.
    rewrite (append_pairs_even 5) in Hb by (rewrite L2; reflexivity).
    injection Hb as <-.
    destruct (bit_pairs_digits 5 q2) as [E2 Q2];
      [rewrite L2; reflexivity | assumption |].
    pose proof (bit_pairs_length 5 q2) as Lb2.
    specialize (Lb2 ltac:(rewrite L2; reflexivity)).
    assert (Ht : Forall trit (bit_pairs indicator ++ bit_pairs q2)).
    { apply quads_without_three; [|exact H3]. apply Forall_app. now split. }
    rewrite !firstn_all2 by lia.
    split; [rewrite length_app; lia|]. split; [exact Ht|].
    split; [rewrite length_app; lia|].
    split; [apply Forall_app; now split|].
    split; [now left|].
    unfold _encode_v2_half_parts.
    rewrite (firstn_app_exact 4), (skipn_app_exact 4) by assumption.
    rewrite (firstn_app_exact 10), (skipn_app_exact 10) by assumption.
    rewrite Ei, E2. cbv beta iota zeta. rewrite Hs. reflexivity.
  - assert (K0 : length q0 = 18%nat) by lia.
    assert (K1 : length q1 = 18%nat) by lia.
    assert (K2 : length q2 = 18%nat) by lia.
    clear L0 L1 L2 Hn Hn' n. rename K0 into L0, K1 into L1, K2 into L2.
    rewrite (append_pairs_even 9) in Hb by (rewrite L2; reflexivity).
    injection Hb as <-.
    destruct (bit_pairs_digits 9 q2) as [E2 Q2];
      [rewrite L2; reflexivity | assumption |].
    pose proof (bit_pairs_length 9 q2) as Lb2.
    specialize (Lb2 ltac:(rewrite L2; reflexivity)).
    assert (Ht : Forall trit (bit_pairs indicator ++ bit_pairs q2)).
    { apply quads_without_three; [|exact H3]. apply Forall_app. now split. }
    apply Forall_app in Ht as [Ht1 Ht2].
    apply list_eqb_eq in Heq.
    rewrite (firstn_app_exact 4) in Heq by assumption.
    unfold last_k in Heq. unfold drop_last_k.
    rewrite length_app, Lbi, Lb2 in *. change (4 + 9 - 4)%nat with 9%nat in *.
    pose proof (firstn_skipn 5 (bit_pairs q2)) as E5.
    remember (firstn 5 (bit_pairs q2)) as mid eqn:Emid.
    remember (skipn 5 (bit_pairs q2)) as tail eqn:Etail.
    assert (Lmid : length mid = 5%nat) by (subst mid; rewrite length_firstn; lia).
    assert (Ltail : length tail = 4%nat)
      by (subst tail; rewrite length_skipn; lia).
    rewrite <- E5, app_assoc in Heq.
    rewrite (skipn_app_exact 9) in Heq by (rewrite length_app; lia).
    rewrite <- E5, app_assoc.
    rewrite (firstn_app_exact 9) by (rewrite length_app; lia).
    rewrite <- E5 in Ht2. apply Forall_app in Ht2 as [Htm Htt].
    assert (Lq0 : length (firstn 10 q0) = 10%nat)
      by (rewrite length_firstn; lia).
    assert (Lq1 : length (firstn 10 q1) = 10%nat)
      by (rewrite length_firstn; lia).
    split; [rewrite length_app; lia|].
    split; [apply Forall_app; now split|].
    split; [rewrite length_app; lia|].
    split; [apply Forall_app; now split|].
    split.
    { right. split; [reflexivity|]. eexists. split; [reflexivity|]. split.
      - rewrite length_app, !length_skipn. lia.
      - apply Forall_app. now split. }
    unfold _encode_v2_half_parts.
    rewrite (firstn_app_exact 4), (skipn_app_exact 4) by assumption.
    rewrite (firstn_app_exact 10), (skipn_app_exact 10) by assumption.
    rewrite (firstn_app_exact 8), (skipn_app_exact 8)
      by (rewrite length_skipn; lia).
    assert (Eq2 : digit_bits mid ++ indicator = q2).
    { rewrite <- E2, <- E5, digit_bits_app, <- Heq, Ei. reflexivity. }
    rewrite !firstn_skipn, Ei, Eq2.
    cbv beta iota zeta. rewrite Hs. reflexivity.
Qed.

Lemma half_converse (code rolling fixed : list Z) (data : option (list Z)) :
  Forall bit code ->
  _decode_v2_half code = Ok (rolling, fixed, data) ->
  length rolling = 9%nat /\ Forall trit rolling /\
  length fixed = 20%nat /\ Forall bit fixed /\
  (data = None \/
   exists d, data = Some d /\ length d = 16%nat /\ Forall bit d) /\
  _encode_v2_half rolling fixed data = Ok code.
Proof.
  intros Bc H.
  pose proof (decode_v2_half_length _ _ _ _ H) as Hlen.
  apply decode_v2_half_inv in H as (c0 & c1 & rest & -> & H).
  inversion_clear Bc as [|? ? B0 Bc']. inversion_clear Bc' as [|? ? B1 Br].
  destruct (Forall_firstn_skipn bit 8 rest Br) as [Bi Bp].
  assert (Li : length (firstn 8 rest) = 8%nat).
  { rewrite length_firstn. cbn [length] in Hlen.
    destruct Hlen as [[L _] | [L _]]; lia. }
  destruct (half_parts_converse _ _ _ _ _ _ Bi Li Bp H)
    as (Lr & Tr & Lf & Bf & Hcase & He).
  repeat (split; [assumption|]).
  split; [destruct Hcase as [[_ ->] | [_ Hd]]; [now left | now right]|].
  unfold _encode_v2_half. rewrite He. cbn [bind].
  rewrite firstn_skipn.
  destruct Hcase as [[E _] | [E _]]; rewrite E;
    destruct B0 as [-> | ->], B1 as [-> | ->]; try discriminate E;
    reflexivity.
Qed.

Lemma rolling_digits_join (rolling1 rolling2 : list Z) :
  length rolling1 = 9%nat -> length rolling2 = 9%nat ->
  let ds :=
    (skipn 8 rolling2 ++ skipn 8 rolling1)
      ++ (slice rolling2 4 8 ++ slice rolling1 4 8)
      ++ (firstn 4 rolling2 ++ firstn 4 rolling1) in
  length ds = 18%nat /\
  slice ds 14 18 ++ slice ds 6 10 ++ slice ds 1 2 = rolling1 /\
  slice ds 10 14 ++ slice ds 2 6 ++ slice ds 0 1 = rolling2.
Proof.
  intros H1 H2.
  do 9 (destruct rolling1 as [|? rolling1]; [discriminate H1|]).
  destruct rolling1; [|discriminate H1].
  do 9 (destruct rolling2 as [|? rolling2]; [discriminate H2|]).
  destruct rolling2; [|discriminate H2].
  repeat split; reflexivity.
Qed.

Lemma rolling_converse (rolling1 rolling2 : list Z) (rolling : Z) :
  length rolling1 = 9%nat -> length rolling2 = 9%nat ->
  Forall trit rolling1 -> Forall trit rolling2 ->
  _decode_v2_rolling rolling1 rolling2 = Ok rolling ->
  _encode_v2_rolling rolling = Ok (rolling1, rolling2) /\
  0 <= rolling < 2 ^ 28.
Proof.
  intros L1 L2 T1 T2. unfold _decode_v2_rolling. cbv zeta.
  destruct (rolling_digits_join rolling1 rolling2 L1 L2) as (Ld & E1 & E2).
  rewrite <- !app_assoc in *.
  assert (Td : Forall (fun d => 0 <= d < 3)
                 (skipn 8 rolling2 ++ skipn 8 rolling1 ++ slice rolling2 4 8
                    ++ slice rolling1 4 8 ++ firstn 4 rolling2
                    ++ firstn 4 rolling1)).
  { eapply Forall_impl; [intros d; apply trit_range|].
    repeat (apply Forall_app; split);
      first [now apply Forall_slice | now apply Forall_firstn_skipn]. }
  remember (skipn 8 rolling2 ++ skipn 8 rolling1 ++ slice rolling2 4 8
              ++ slice rolling1 4 8 ++ firstn 4 rolling2
              ++ firstn 4 rolling1) as ds eqn:Eds.
  rewrite (proj2 (fold_base3 ds 0 (of_digits 3 ds)) eq_refl).
  pose proof (of_digits_range 3 ds eq_refl Td) as Hv.
  pose proof (digits_of_digits 3 ds eq_refl Td) as Hdd.
  rewrite Ld in Hdd.
  remember (of_digits 3 ds) as v eqn:Ev.
  destruct (v >=? 2 ^ 28) eqn:Eg; [discriminate|].
  rewrite Z.geb_leb in Eg. apply Z.leb_gt in Eg.
  rewrite (reverse_bits_reversed 28 v)
    by (change (Z.of_nat 28) with 28; lia).
  intros [= <-].
  pose proof (reversed_range 28 v) as Hr.
  change (Z.of_nat 28) with 28 in Hr.
  split; [|exact Hr].
  unfold _encode_v2_rolling.
  rewrite (reverse_bits_reversed 28 (reversed 28 v))
    by (change (Z.of_nat 28) with 28; lia).
  rewrite reversed_involutive by (change (Z.of_nat 28) with 28; lia).
  cbn [bind].
  destruct (rolling_base3_loop v) as (r' & ->). cbn [bind].
  rewrite Hdd, E1, E2. reflexivity.
Qed.

Lemma bits_converse (w : nat) (bits : list Z) (n : Z) :
  (1 <= w)%nat -> length bits = w -> Forall bit bits ->
  int_of_bits bits = Ok n ->
  int_bits w n = Ok bits /\ 0 <= n < 2 ^ Z.of_nat w.
Proof.
  intros Hw Hl Hb. unfold int_of_bits.
  rewrite py_str_bits by assumption.
  rewrite int_base2_bits by (assumption || (intros ->; simpl in Hl; lia)).
  intros [= <-].
  assert (Hq : Forall (fun d => 0 <= d < 2) bits).
  { eapply Forall_impl; [intros d; apply bit_range | exact Hb]. }
  pose proof (of_digits_range 2 bits eq_refl Hq) as Hr. rewrite Hl in Hr.
  split; [|exact Hr].
  rewrite int_bits_digits by assumption.
  rewrite <- Hl at 1. now rewrite digits_of_digits.
Qed.

(** X12: when [decode_v2] returns a result on a list of bits, the result is
    in range (rolling code below 2^28, fixed code below 2^40, data below
    2^32, none negative) and [encode_v2] of it returns that very list: the
    decoder accepts no bit list but the encoder's codes, and no two bit
    lists decode to the same values. *)
Theorem decode_v2_then_encode_v2 (code : list Z) (rolling fixed : Z) (data : option Z) :
  Forall bit code ->
  decode_v2 code = Ok (rolling, fixed, data) ->
  encode_v2 rolling fixed data = Ok code /\
  0 <= rolling < 2 ^ 28 /\ 0 <= fixed < 2 ^ 40 /\
  match data with Some d => 0 <= d < 2 ^ 32 | None => True end.
Proof.
  intros Bc H.
  apply decode_v2_inv in H
    as (r1 & f1 & d1 & r2 & f2 & d2 & H1 & H2 & Hr & Hf & Hd).
  destruct (Forall_firstn_skipn bit (length code / 2) code Bc) as [B1 B2].
  destruct (half_converse _ _ _ _ B1 H1)
    as (Lr1 & Tr1 & Lf1 & Bf1 & Hd1 & He1).
  destruct (half_converse _ _ _ _ B2 H2)
    as (Lr2 & Tr2 & Lf2 & Bf2 & Hd2 & He2).
  destruct (rolling_converse r1 r2 rolling Lr1 Lr2 Tr1 Tr2 Hr)
    as [Her Hrr].
  destruct (bits_converse 40 (f1 ++ f2) fixed) as [Hef Hfr];
    [lia | rewrite length_app; lia | apply Forall_app; now split
     | exact Hf |].
  change (Z.of_nat 40) with 40 in Hfr.
  assert (Hc : forall d,
             match d with Some x => 0 <= x < 2 ^ 32 | None => True end ->
             data = d ->
             _v2_check_limits rolling fixed data = Ok tt).
  { intros d Hx ->. apply check_limits_ok; try lia.
    destruct d; [lia | exact I]. }
  destruct Hd as [[-> ->] | (x1 & x2 & d & -> & -> & Hx & ->)].
  - split; [|repeat split; lia].
    unfold encode_v2. rewrite (Hc None I eq_refl). cbn [bind].
    rewrite Her. cbn [bind]. rewrite Hef. cbn [bind].
    rewrite firstn_app_exact, skipn_app_exact by assumption.
    rewrite He1. cbn [bind].
    assert (d2 = None) as ->.
    { apply decode_v2_half_length in H1, H2.
      rewrite length_firstn in H1. rewrite length_skipn in H2.
      pose proof (Nat.div_mod_eq (length code) 2).
      pose proof (Nat.mod_upper_bound (length code) 2).
      destruct H1 as [[K1 _] | [K1 (? & ?)]]; [|discriminate].
      destruct H2 as [[K2 ?] | [K2 _]]; [assumption | lia]. }
    rewrite He2. cbn [bind]. now rewrite firstn_skipn.
  - destruct Hd1 as [? | (y1 & Ey1 & Ly1 & By1)]; [discriminate|].
    destruct Hd2 as [? | (y2 & Ey2 & Ly2 & By2)]; [discriminate|].
    injection Ey1 as <-. injection Ey2 as <-.
    destruct (bits_converse 32 (x1 ++ x2) d) as [Hed Hdr];
      [lia | rewrite length_app; lia | apply Forall_app; now split
       | exact Hx |].
    change (Z.of_nat 32) with 32 in Hdr.
    split; [|repeat split; lia].
    unfold encode_v2. rewrite (Hc (Some d) Hdr eq_refl). cbn [bind].
    rewrite Her. cbn [bind]. rewrite Hef. cbn [bind].
    rewrite Hed. cbn [bind].
    rewrite !firstn_app_exact, !skipn_app_exact by assumption.
    rewrite He1. cbn [bind]. rewrite He2. cbn [bind].
    now rewrite firstn_skipn.
Qed.

(** ** The wireline frame: from a decoded frame back to the frame *)

Lemma byte_bits_pack (b : byte) :
  length (byte_bits b) = 8%nat /\ Forall bit (byte_bits b) /\
  pack8 (byte_bits b) = int_of_byte b /\ byte_of_int (int_of_byte b) = Ok b.
Proof.
  destruct b;
    (split; [reflexivity|]; split;
     [repeat (apply Forall_cons; [unfold bit; auto|]); apply Forall_nil
     |split; vm_compute; reflexivity]).
Qed.

Lemma frame_bits (bs : list byte) :
  length (flat_map byte_bits bs) = (length bs * 8)%nat /\
  Forall bit (flat_map byte_bits bs) /\
  pack_all (length bs) (flat_map byte_bits bs) = map int_of_byte bs /\
  map_m byte_of_int (map int_of_byte bs) = Ok bs.
Proof.
  induction bs as [|b bs (IHl & IHb & IHp & IHm)]; cbn [flat_map length map].
  - repeat split. constructor.
  - destruct (byte_bits_pack b) as (Hl & Hb & Hp & Hm).
    split; [rewrite length_app, Hl, IHl; lia|].
    split; [apply Forall_app; now split|].
    split.
    + cbn [pack_all]. rewrite (firstn_app_exact 8), (skipn_app_exact 8)
        by assumption.
      now rewrite Hp, IHp.
    + cbn [map_m]. rewrite Hm, IHm. reflexivity.
Qed.

Lemma wireline_half_converse (code rolling fixed : list Z)
  (data : option (list Z)) :
  Forall bit code -> length code = 64%nat ->
  _decode_wireline_half code = Ok (rolling, fixed, data) ->
  length rolling = 9%nat /\ Forall trit rolling /\
  length fixed = 20%nat /\ Forall bit fixed /\
  exists d,
    data = Some d /\ length d = 16%nat /\ Forall bit d /\
    _encode_wireline_half rolling fixed d = Ok code.
Proof.
  intros Bc Lc. unfold _decode_wireline_half. intros H.
  inv_step H. apply negb_false_iff, list_eqb_eq in E.
  destruct (Forall_firstn_skipn bit 8 code Bc) as [Bi _].
  destruct (Forall_firstn_skipn bit 10 code Bc) as [_ Bp].
  assert (Li : length (firstn 8 code) = 8%nat)
    by (rewrite length_firstn; lia).
  destruct (half_parts_converse _ _ _ _ _ _ Bi Li Bp H)
    as (Lr & Tr & Lf & Bf & Hcase & He).
  repeat (split; [assumption|]).
  destruct Hcase as [[? _] | (_ & d & -> & Ld & Bd)]; [discriminate|].
  exists d. repeat (split; [assumption || reflexivity|]).
  unfold _encode_wireline_half. rewrite He. cbn [bind].
  rewrite <- E. unfold slice. change (10 - 8)%nat with 2%nat.
  rewrite <- (firstn_skipn 8 code) at 4.
  rewrite <- (firstn_skipn 2 (skipn 8 code)) at 2.
  rewrite skipn_skipn. reflexivity.
Qed.

Lemma decode_wireline_frame (code : list byte) (r : Z * Z * Z) :
  decode_wireline (PyBytes code) = Ok r ->
  exists bs, code = (x55 :: x01 :: x00 :: bs)%byte /\ length bs = 16%nat.
Proof.
  unfold decode_wireline. cbn [is_bytes]. intros H.
  inv_step H. apply negb_false_iff, Nat.eqb_eq in E.
  inv_step H. apply negb_false_iff, bytes_eqb_eq in E0.
  destruct code as [|b0 [|b1 [|b2 bs]]]; try discriminate E.
  cbn [firstn] in E0. injection E0 as -> -> ->.
  exists bs. split; [reflexivity|]. simpl in E. lia.
Qed.

(** X14: when [decode_wireline] returns a result on a [bytes] object, the
    result is in range and [encode_wireline] of it returns that very
    object. *)
Theorem decode_wireline_then_encode_wireline (code : list byte) (rolling fixed data : Z) :
  decode_wireline (PyBytes code) = Ok (rolling, fixed, data) ->
  encode_wireline rolling fixed data = Ok code /\
  0 <= rolling < 2 ^ 28 /\ 0 <= fixed < 2 ^ 40 /\ 0 <= data < 2 ^ 32.
Proof.
  intros H.
  destruct (decode_wireline_frame code _ H) as (bs & -> & Lbs).
  rewrite (decode_wireline_framed bs Lbs) in H. cbv zeta in H.
  destruct (frame_bits bs) as (Lb & Bb & Hp & Hm).
  rewrite Lbs in Lb, Hp.
  remember (flat_map byte_bits bs) as bits eqn:Ebits.
  destruct (Forall_firstn_skipn bit 64 bits Bb) as [B1 B2].
  inv_step H. destruct a as [[r1 f1] d1].
  inv_step H. destruct a as [[r2 f2] d2].
  inv_step H. inv_step H.
  destruct (wireline_half_converse _ _ _ _ B1
              ltac:(rewrite length_firstn; lia) E)
    as (Lr1 & Tr1 & Lf1 & Bf1 & x1 & -> & Lx1 & Bx1 & He1).
  destruct (wireline_half_converse _ _ _ _ B2
              ltac:(rewrite length_skipn; lia) E0)
    as (Lr2 & Tr2 & Lf2 & Bf2 & x2 & -> & Lx2 & Bx2 & He2).
  inv_step H. injection H as <- <- <-.
  destruct (rolling_converse r1 r2 a Lr1 Lr2 Tr1 Tr2 E1) as [Her Hrr].
  destruct (bits_converse 40 (f1 ++ f2) a0) as [Hef Hfr];
    [lia | rewrite length_app; lia | apply Forall_app; now split
     | exact E2 |].
  change (Z.of_nat 40) with 40 in Hfr.
  destruct (bits_converse 32 (x1 ++ x2) a1) as [Hed Hdr];
    [lia | rewrite length_app; lia | apply Forall_app; now split
     | exact E3 |].
  change (Z.of_nat 32) with 32 in Hdr.
  split; [|repeat split; lia].
  unfold encode_wireline. rewrite check_limits_ok by lia. cbn [bind].
  rewrite Her. cbn [bind]. rewrite Hef. cbn [bind]. rewrite Hed. cbn [bind].
  rewrite !firstn_app_exact, !skipn_app_exact by assumption.
  rewrite He1. cbn [bind]. rewrite He2. cbn [bind].
  rewrite firstn_skipn, Lb. change (16 * 8 / 8)%nat with 16%nat.
  rewrite (pack_loop bits 16 0) by exact Lb.
  cbn [bind]. change (skipn (0 * 8) bits) with bits. rewrite Hp.
  cbn [app map_m].
  change (byte_of_int 0x55) with (Ok x55).
  change (byte_of_int 0x01) with (Ok x01).
  change (byte_of_int 0x00) with (Ok x00).
  rewrite Hm. reflexivity.
Qed.

(** ** Security+ 2.0: the codes of the encoders and of the decoders *)

Lemma half_type_bits (code rolling fixed : list Z) (data : option (list Z)) :
  Forall bit code ->
  _decode_v2_half code = Ok (rolling, fixed, data) ->
  firstn 2 code = [0; match data with Some _ => 1 | None => 0 end].
Proof.
  intros Bc H.
  apply decode_v2_half_inv in H as (c0 & c1 & rest & -> & H).
  inversion_clear Bc as [|? ? B0 Bc']. inversion_clear Bc' as [|? ? B1 _].
  apply decode_v2_half_parts_inv in H
    as (parts & ra & rolling_all & p0 & p1 & p2 & _ & _ & _ & _ & _ & _ & _
        & _ & [(E & _ & _ & ->) | (E & _ & _ & _ & ->)]);
    destruct B0 as [-> | ->], B1 as [-> | ->]; try discriminate E;
    reflexivity.
Qed.

(** X8: for values in range [encode_v2] returns a list of bits, 80 without
    data and 128 with data, whose two halves each start with the packet
    type: 0, 0 without data and 0, 1 with data. *)
Theorem encode_v2_code_shape (rolling fixed : Z) (data : option Z) :
  0 <= rolling < 2 ^ 28 -> 0 <= fixed < 2 ^ 40 ->
  match data with Some d => 0 <= d < 2 ^ 32 | None => True end ->
  let half_len := match data with Some _ => 64%nat | None => 40%nat end in
  let type_bit := match data with Some _ => 1 | None => 0 end in
  exists code,
    encode_v2 rolling fixed data = Ok code /\
    length code = (2 * half_len)%nat /\ Forall bit code /\
    firstn 2 code = [0; type_bit] /\
    firstn 2 (skipn half_len code) = [0; type_bit].
Proof.
  intros Hr Hf Hd half_len type_bit.
  destruct (v2_code_round_trip rolling fixed data Hr Hf Hd)
    as (code & He & Hdec & Hb & Hlen).
  exists code. split; [exact He|].
  assert (Hh : (length code / 2)%nat = half_len).
  { rewrite Hlen. unfold half_len. now destruct data. }
  split; [rewrite Hlen; unfold half_len; now destruct data|].
  split; [exact Hb|].
  apply decode_v2_inv in Hdec
    as (r1 & f1 & d1 & r2 & f2 & d2 & H1 & H2 & _ & _ & Hdd).
  rewrite Hh in H1, H2.
  destruct (Forall_firstn_skipn bit half_len code Hb) as [B1 B2].
  pose proof (half_type_bits _ _ _ _ B1 H1) as T1.
  pose proof (half_type_bits _ _ _ _ B2 H2) as T2.
  pose proof (decode_v2_half_length _ _ _ _ H1) as K1.
  pose proof (decode_v2_half_length _ _ _ _ H2) as K2.
  rewrite length_firstn in K1. rewrite length_skipn in K2.
  rewrite firstn_firstn in T1.
  assert (Hm : Nat.min 2 half_len = 2%nat)
    by (unfold half_len; now destruct data).
  rewrite Hm in T1.
  unfold type_bit.
  destruct Hdd as [[-> ->] | (x1 & x2 & d & -> & -> & _ & ->)].
  - split; [exact T1|].
    destruct d2 as [x|]; [|exact T2].
    exfalso. unfold half_len in K2.
    destruct K2 as [[_ ?] | [K2 _]]; [discriminate | lia].
  - split; [exact T1 | exact T2].
Qed.

Lemma encode_v2_code_shape_witness :
  exists code,
    encode_v2 123456 78901234567 (Some 4242424242) = Ok code /\
    length code = (2 * 64)%nat /\ Forall bit code /\
    firstn 2 code = [0; 1] /\ firstn 2 (skipn 64 code) = [0; 1].
Proof.
  apply (encode_v2_code_shape 123456 78901234567 (Some 4242424242)); lia.
Defined.

Lemma decode_v2_then_encode_v2_witness :
  encode_v2 123456 78901234567 None = Ok sample_code_v2 /\
  0 <= 123456 < 2 ^ 28 /\ 0 <= 78901234567 < 2 ^ 40 /\ True.
Proof.
  apply (decode_v2_then_encode_v2 sample_code_v2 123456 78901234567 None).
  - unfold sample_code_v2. repeat (apply Forall_cons; [unfold bit; auto|]); apply Forall_nil.
  - vm_compute. reflexivity.
Defined.

(** X13: the split of the rolling code over the two halves and its join are
    inverse to each other: for a rolling code in [0, 2^28)
    [_encode_v2_rolling] returns two lists of 9 ternary digits that
    [_decode_v2_rolling] joins to the rolling code, and when
    [_decode_v2_rolling] accepts two lists of 9 ternary digits its result
    is in [0, 2^28) and [_encode_v2_rolling] splits it into these lists. *)
Theorem rolling_split_join (rolling : Z) (rolling1 rolling2 : list Z) :
  (0 <= rolling < 2 ^ 28 ->
   exists r1 r2,
     _encode_v2_rolling rolling = Ok (r1, r2) /\
     length r1 = 9%nat /\ length r2 = 9%nat /\
     Forall trit r1 /\ Forall trit r2 /\
     _decode_v2_rolling r1 r2 = Ok rolling) /\
  (length rolling1 = 9%nat -> length rolling2 = 9%nat ->
   Forall trit rolling1 -> Forall trit rolling2 ->
   _decode_v2_rolling rolling1 rolling2 = Ok rolling ->
   0 <= rolling < 2 ^ 28 /\
   _encode_v2_rolling rolling = Ok (rolling1, rolling2)).
Proof.
  split.
  - apply encode_v2_rolling_round_trip.
  - intros L1 L2 T1 T2 H.
    destruct (rolling_converse rolling1 rolling2 rolling L1 L2 T1 T2 H).
    now split.
Qed.

Lemma rolling_split_join_witness :
  (exists r1 r2,
      _encode_v2_rolling 123456 = Ok (r1, r2) /\
      length r1 = 9%nat /\ length r2 = 9%nat /\
      Forall trit r1 /\ Forall trit r2 /\
      _decode_v2_rolling r1 r2 = Ok 123456) /\
  (0 <= 0 < 2 ^ 28 /\
   _encode_v2_rolling 0 = Ok (repeat 0 9, repeat 0 9)).
Proof.
  destruct (rolling_split_join 123456 [] []) as [H _].
  destruct (rolling_split_join 0 (repeat 0 9) (repeat 0 9)) as [_ H'].
  split; [apply H; lia|].
  apply H'; try reflexivity;
    simpl; repeat (apply Forall_cons; [left; reflexivity|]); apply Forall_nil.
Defined.

Lemma decode_wireline_then_encode_wireline_witness :
  encode_wireline 123456 78901234567 4242424242 = Ok sample_frame /\
  0 <= 123456 < 2 ^ 28 /\ 0 <= 78901234567 < 2 ^ 40 /\
  0 <= 4242424242 < 2 ^ 32.
Proof.
  apply (decode_wireline_then_encode_wireline sample_frame).
  vm_compute. reflexivity.
Defined.

(** X15: for values in range [encode_wireline] returns 19 bytes that start
    with 55 01 00. *)
Theorem encode_wireline_frame_shape (rolling fixed data : Z) :
  0 <= rolling < 2 ^ 28 -> 0 <= fixed < 2 ^ 40 -> 0 <= data < 2 ^ 32 ->
  exists code,
    encode_wireline rolling fixed data = Ok code /\
    length code = 19%nat /\ firstn 3 code = header.
Proof.
  intros Hr Hf Hd.
  destruct (wireline_code_round_trip rolling fixed data Hr Hf Hd)
    as (code & He & Hdec).
  destruct (decode_wireline_frame code _ Hdec) as (bs & -> & Lbs).
  eexists. split; [exact He|]. split; [|reflexivity].
  cbn [length]. now rewrite Lbs.
Qed.

Lemma encode_wireline_frame_shape_witness :
  exists code,
    encode_wireline 123456 78901234567 4242424242 = Ok code /\
    length code = 19%nat /\ firstn 3 code = header.
Proof.
  apply (encode_wireline_frame_shape 123456 78901234567 4242424242); lia.
Defined.

(** ** The Manchester framer: the stream *)

Lemma manchester_shape (code : list Z) :
  Forall bit code ->
  length (_manchester code) = (2 * length code)%nat /\
  Forall bit (_manchester code).
Proof.
  rewrite manchester_flat_map.
  induction 1 as [|b code [-> | ->] _ [IHl IHb]]; cbn [flat_map length app].
  - split; [reflexivity | constructor].
  - change (0 =? 0) with true. cbn [app length]. split; [lia|].
    repeat (apply Forall_cons; [unfold bit; auto|]). exact IHb.
  - change (1 =? 0) with false. cbn [app length]. split; [lia|].
    repeat (apply Forall_cons; [unfold bit; auto|]). exact IHb.
Qed.

(** X16: for values in range [encode_v2_manchester] returns a stream of
    bits, 314 of them without data and 410 with data. *)
Theorem encode_v2_manchester_stream (rolling fixed : Z) (data : option Z) :
  0 <= rolling < 2 ^ 28 -> 0 <= fixed < 2 ^ 40 ->
  match data with Some d => 0 <= d < 2 ^ 32 | None => True end ->
  exists stream,
    encode_v2_manchester rolling fixed data = Ok stream /\
    length stream = match data with Some _ => 410%nat | None => 314%nat end /\
    Forall bit stream.
Proof.
  intros Hr Hf Hd.
  destruct (v2_code_round_trip rolling fixed data Hr Hf Hd)
    as (code & He & _ & Hb & Hlen).
  unfold encode_v2_manchester. rewrite He. cbn [bind].
  destruct (Forall_firstn_skipn bit (length code / 2) code Hb) as [B1 B2].
  assert (P1 : Forall bit (preamble ++ [0; 0] ++ firstn (length code / 2) code)).
  { apply Forall_app. split; [apply preamble_bits|].
    apply Forall_app. split; [|exact B1].
    repeat (apply Forall_cons; [unfold bit; auto|]). apply Forall_nil. }
  assert (P2 : Forall bit (preamble ++ [0; 1] ++ skipn (length code / 2) code)).
  { apply Forall_app. split; [apply preamble_bits|].
    apply Forall_app. split; [|exact B2].
    repeat (apply Forall_cons; [unfold bit; auto|]). apply Forall_nil. }
  destruct (manchester_shape _ P1) as [M1 Q1].
  destruct (manchester_shape _ P2) as [M2 Q2].
  assert (Z33 : Forall bit (repeat 0 33)).
  { apply Forall_forall. intros x Hx. apply repeat_spec in Hx. now left. }
  eexists. split; [reflexivity|]. split.
  - rewrite !length_app, M1, M2, !length_app, repeat_length.
    rewrite length_firstn, length_skipn, Hlen.
    destruct data; reflexivity.
  - repeat (apply Forall_app; split); assumption.
Qed.

Lemma encode_v2_manchester_stream_witness :
  exists stream,
    encode_v2_manchester 123456 78901234567 None = Ok stream /\
    length stream = 314%nat /\ Forall bit stream.
Proof.
  apply (encode_v2_manchester_stream 123456 78901234567 None); [lia | lia|].
  exact I.
Defined.

(** ** The scrambler: no entry is lost *)

Lemma every3_lengths (l : list Z) :
  (length (slice_step l 0 3) + length (slice_step l 1 3)
   + length (slice_step l 2 3) = length l)%nat.
Proof.
  unfold slice_step. induction l as [|x l IH]; [reflexivity|].
  cbn [every Nat.sub length]. lia.
Qed.

(** X17: for an indicator whose two selectors are keys of the tables
    [_v2_unscramble] does not fail, whatever the length of the payload, and
    returns three parts that hold as many entries as the payload. *)
Theorem unscramble_total (indicator payload : list Z) order invert :
  lookup_tables indicator = Ok (order, invert) ->
  exists p0 p1 p2,
    _v2_unscramble indicator payload = Ok [p0; p1; p2] /\
    (length p0 + length p1 + length p2 = length payload)%nat.
Proof.
  intros Hl. unfold _v2_unscramble. rewrite Hl.
  apply lookup_tables_In in Hl as [Ho Hi].
  assert (exists b0 b1 b2, invert = [b0; b1; b2]) as (b0 & b1 & b2 & ->).
  { simpl in Hi. repeat (destruct Hi as [<-|Hi]; [eauto|]). contradiction. }
  clear Hi. simpl in Ho.
  pose proof (every3_lengths payload) as Hsum.
  cbn [bind]. rewrite invert_loop. cbn [bind].
  repeat (destruct Ho as [<-|Ho]); try contradiction;
    cbn [for_each seq place_body getitem nth_error setitem bind];
    do 3 eexists; (split; [reflexivity|]);
    rewrite !invert_if_length; lia.
Qed.

Lemma unscramble_total_witness :
  exists p0 p1 p2,
    _v2_unscramble [0; 1; 1; 0; 1; 0; 0; 1] [1; 0; 1; 1] = Ok [p0; p1; p2] /\
    (length p0 + length p1 + length p2 = length [1; 0; 1; 1])%nat.
Proof.
  apply (unscramble_total [0; 1; 1; 0; 1; 0; 0; 1] [1; 0; 1; 1]
           [2; 1; 0]%nat [false; false; false]).
  reflexivity.
Defined.

(** ** The wireline frame and the over-the-air code *)

(** X18: for values in range the wireline frame carries the indicators and
    scrambled payloads of the over-the-air code with data: each half of the
    code of [encode_v2] is 0, 1, then 8 indicator bits, then 54 payload
    bits, and the 16 bytes after the header of the frame of
    [encode_wireline] hold, most significant bit first, the same indicator,
    then 0, 0, then the same payload, for each half. *)
Theorem wireline_carries_air_code (rolling fixed data : Z) :
  0 <= rolling < 2 ^ 28 -> 0 <= fixed < 2 ^ 40 -> 0 <= data < 2 ^ 32 ->
  exists indicator1 payload1 indicator2 payload2 frame,
    length indicator1 = 8%nat /\ length payload1 = 54%nat /\
    length indicator2 = 8%nat /\ length payload2 = 54%nat /\
    encode_v2 rolling fixed (Some data)
    = Ok (([0; 1] ++ indicator1 ++ payload1)
            ++ ([0; 1] ++ indicator2 ++ payload2)) /\
    encode_wireline rolling fixed data = Ok frame /\
    flat_map byte_bits (skipn 3 frame)
    = (indicator1 ++ [0; 0] ++ payload1)
        ++ (indicator2 ++ [0; 0] ++ payload2).
Proof.
  intros Hr Hf Hd. unfold encode_v2, encode_wireline.
  rewrite check_limits_ok by lia. cbn [bind].
  destruct (encode_v2_rolling_round_trip rolling Hr)
    as (r1 & r2 & -> & L1 & L2 & T1 & T2 & _).
  cbn [bind].
  rewrite (int_bits_digits 40 fixed) by (change (Z.of_nat 40) with 40; lia).
  rewrite (int_bits_digits 32 data) by (change (Z.of_nat 32) with 32; lia).
  cbn [bind].
  pose proof (digits_length 2 40 fixed) as Lf.
  pose proof (digits2_bits 40 fixed) as Bf.
  remember (digits 2 40 fixed) as fb eqn:Efb.
  pose proof (digits_length 2 32 data) as Ld.
  pose proof (digits2_bits 32 data) as Bd.
  remember (digits 2 32 data) as db eqn:Edb.
  destruct (Forall_firstn_skipn bit 20 fb Bf) as [Bf1 Bf2].
  destruct (Forall_firstn_skipn bit 16 db Bd) as [Bd1 Bd2].
  destruct (half_parts_type1 r1 (firstn 20 fb) (firstn 16 db))
    as (p1 & He1 & Lp1 & _ & Bp1);
    [assumption | assumption | rewrite length_firstn; lia
     | rewrite length_firstn; lia |].
  destruct (half_parts_type1 r2 (skipn 20 fb) (skipn 16 db))
    as (p2 & He2 & Lp2 & _ & Bp2);
    [assumption | assumption | rewrite length_skipn; lia
     | rewrite length_skipn; lia |].
  specialize (Bp1 Bf1 Bd1). specialize (Bp2 Bf2 Bd2).
  assert (Li1 : length (digit_bits (firstn 4 r1)) = 8%nat)
    by (rewrite digit_bits_length, length_firstn; lia).
  assert (Li2 : length (digit_bits (firstn 4 r2)) = 8%nat)
    by (rewrite digit_bits_length, length_firstn; lia).
  assert (Bi1 : Forall bit (digit_bits (firstn 4 r1)))
    by now apply digit_bits_bits, Forall_firstn_skipn.
  assert (Bi2 : Forall bit (digit_bits (firstn 4 r2)))
    by now apply digit_bits_bits, Forall_firstn_skipn.
  unfold _encode_v2_half, _encode_wireline_half. rewrite He1, He2.
  cbn [bind].
  remember (digit_bits (firstn 4 r1)) as i1 eqn:Ei1.
  remember (digit_bits (firstn 4 r2)) as i2 eqn:Ei2.
  remember ((i1 ++ [0; 0] ++ p1) ++ i2 ++ [0; 0] ++ p2) as bits eqn:Ebits.
  assert (Lb : length bits = (16 * 8)%nat).
  { subst bits. rewrite !length_app. cbn [length]. lia. }
  assert (Bb : Forall bit bits).
  { subst bits. repeat (apply Forall_app; split); try assumption;
      repeat (apply Forall_cons; [unfold bit; auto|]); apply Forall_nil. }
  rewrite Lb. change (16 * 8 / 8)%nat with 16%nat.
  rewrite (pack_loop bits 16 0) by exact Lb.
  cbn [bind]. change (skipn (0 * 8) bits) with bits.
  destruct (pack_all_bytes 16 bits Lb Bb) as (bs & Ebs & Eflat & Lbs).
  cbn [app map_m].
  change (byte_of_int 0x55) with (Ok x55).
  change (byte_of_int 0x01) with (Ok x01).
  change (byte_of_int 0x00) with (Ok x00).
  rewrite Ebs. cbn [bind].
  exists i1, p1, i2, p2. eexists.
  repeat (split; [assumption || reflexivity|]).
  cbn [skipn]. rewrite Eflat, Ebits. reflexivity.
Qed.

Lemma wireline_carries_air_code_witness :
  exists indicator1 payload1 indicator2 payload2 frame,
    length indicator1 = 8%nat /\ length payload1 = 54%nat /\
    length indicator2 = 8%nat /\ length payload2 = 54%nat /\
    encode_v2 123456 78901234567 (Some 4242424242)
    = Ok (([0; 1] ++ indicator1 ++ payload1)
            ++ ([0; 1] ++ indicator2 ++ payload2)) /\
    encode_wireline 123456 78901234567 4242424242 = Ok frame /\
    flat_map byte_bits (skipn 3 frame)
    = (indicator1 ++ [0; 0] ++ payload1)
        ++ (indicator2 ++ [0; 0] ++ payload2).
Proof.
  apply (wireline_carries_air_code 123456 78901234567 4242424242); lia.
Defined.

(** ** The wireline frame: the marker bits *)

(** X19: a frame of 19 bytes with the right header whose fifth byte is 64 or
    more, that is, whose bits 8 and 9 of the first half are not both 0,
    makes [decode_wireline] raise the error of the marker bits. *)
Theorem decode_wireline_marker (b0 b1 : byte) (rest : list byte) :
  length rest = 14%nat -> 64 <= int_of_byte b1 ->
  decode_wireline (PyBytes (x55 :: x01 :: x00 :: b0 :: b1 :: rest)%byte)
  = Raise (ValueError "Unexpected values for bits 8 and 9").
Proof.
  intros Hl Hb.
  rewrite decode_wireline_framed by (cbn [length]; lia).
  cbv zeta. cbn [flat_map].
  destruct (byte_bits_pack b0) as (L0 & _).
  destruct (byte_bits_pack b1) as (L1 & _).
  destruct (frame_bits rest) as (Lr & _).
  assert (E : slice (firstn 64 (byte_bits b0 ++ byte_bits b1
                                  ++ flat_map byte_bits rest)) 8 10
              = firstn 2 (byte_bits b1)).
  { unfold slice. change (10 - 8)%nat with 2%nat.
    rewrite skipn_firstn_comm, (skipn_app_exact 8) by exact L0.
    rewrite firstn_firstn. change (Nat.min 2 (64 - 8)) with 2%nat.
    rewrite firstn_app, L1. change (2 - 8)%nat with 0%nat.
    now rewrite firstn_O, app_nil_r. }
  unfold _decode_wireline_half at 1. rewrite E.
  destruct b1;
    first [reflexivity | exfalso; vm_compute in Hb; apply Hb; reflexivity].
Qed.

Lemma decode_wireline_marker_witness :
  decode_wireline
    (PyBytes (x55 :: x01 :: x00 :: x00 :: x40 :: repeat x00 14)%byte)
  = Raise (ValueError "Unexpected values for bits 8 and 9").
Proof.
  apply (decode_wireline_marker x00 x40 (repeat x00%byte 14));
    [reflexivity | vm_compute; discriminate].
Defined.

(** ** Security+ (v1): the inputs [decode] rejects and the inputs it reads *)

Lemma base3_nonneg (l : list Z) :
  Forall (fun d => 0 <= d) l ->
  forall a, 0 <= a -> 0 <= fold_left (fun a d => a * 3 + d) l a.
Proof.
  induction 1 as [|d l Hd _ IH]; intros a Ha; cbn [fold_left]; [exact Ha|].
  apply IH. lia.
Qed.

Lemma decode_nonneg_entries (code : list Z) :
  (40 <= length code)%nat ->
  Forall (fun d => 0 <= d) (firstn 40 code) ->
  exists rolling fixed, decode code = Ok (rolling, fixed).
Proof.
  intros Hlen Hn. rewrite decode_firstn. unfold decode.
  destruct (decode_loop_spec (firstn 40 code)) as (F & A & -> & _);
    [rewrite length_firstn; lia|].
  cbn [bind].
  destruct (reverse_bits_nonneg 32
              (fold_left (fun a d => a * 3 + d)
                 (slice_step (firstn 40 code) 0 2) 0))
    as (r & -> & _).
  - apply base3_nonneg; [|lia]. now apply every2_Forall.
  - cbn [bind]. now exists r, F.
Qed.

(** C4, amended: [decode] fails on every list of fewer than 40 entries,
    with the [IndexError] of the first missing entry, and on every list of
    40 or more entries whose entries at the positions 0, 2, .., 38, read as
    a number in base 3, give a negative number, with the [ValueError] of
    [int()]; it returns a result on every other list, so on every list of
    40 or more entries of which the first 40 are not negative, whatever
    its length and whether or not these entries are 0, 1 or 2. *)
Theorem decode_failures (code : list Z) :
  let v :=
    fold_left (fun a d => a * 3 + d) (slice_step (firstn 40 code) 0 2) 0 in
  ((length code < 40)%nat -> decode code = Raise IndexError) /\
  ((40 <= length code)%nat -> v < 0 ->
   decode code = Raise invalid_literal) /\
  ((40 <= length code)%nat -> 0 <= v ->
   exists rolling fixed, decode code = Ok (rolling, fixed)) /\
  ((40 <= length code)%nat -> Forall (fun d => 0 <= d) (firstn 40 code) ->
   exists rolling fixed, decode code = Ok (rolling, fixed)).
Proof.
  intros v. split; [apply decode_short_raises|].
  split; [|split].
  - intros Hlen Hv. rewrite decode_firstn. unfold decode.
    destruct (decode_loop_spec (firstn 40 code)) as (F & A & -> & _);
      [rewrite length_firstn; lia|].
    fold v. cbn [bind]. now rewrite reverse_bits_negative.
  - intros Hlen Hv. rewrite decode_firstn. unfold decode.
    destruct (decode_loop_spec (firstn 40 code)) as (F & A & -> & _);
      [rewrite length_firstn; lia|].
    fold v. cbn [bind].
    destruct (reverse_bits_nonneg 32 v Hv) as (r & -> & _).
    cbn [bind]. now exists r, F.
  - apply decode_nonneg_entries.
Qed.

Lemma decode_failures_witness :
  decode (repeat 1 39) = Raise IndexError /\
  decode (-1 :: repeat 0 39) = Raise invalid_literal /\
  (exists rolling fixed, decode (-1 :: 0 :: 5 :: repeat 0 38)
                         = Ok (rolling, fixed)) /\
  (exists rolling fixed, decode (3 :: repeat 7 40) = Ok (rolling, fixed)).
Proof.
  destruct (decode_failures (repeat 1 39)) as (H1 & _).
  destruct (decode_failures (-1 :: repeat 0 39)) as (_ & H2 & _).
  destruct (decode_failures (-1 :: 0 :: 5 :: repeat 0 38))
    as (_ & _ & H3 & _).
  destruct (decode_failures (3 :: repeat 7 40)) as (_ & _ & _ & H4).
  split; [|split; [|split]].
  - apply H1. simpl. lia.
  - apply H2; [simpl; lia|]. vm_compute. reflexivity.
  - apply H3; [simpl; lia|]. vm_compute. discriminate.
  - apply H4; [simpl; lia|].
    simpl. repeat (apply Forall_cons; [lia|]). apply Forall_nil.
Defined.

(** C10: [decode] reads only [code[0]] .. [code[39]]: on a list of at least
    40 entries it returns what it returns on the first 40 of them, and a
    list whose first 40 entries are symbols 0, 1 or 2 is decoded, however
    many entries follow them: longer inputs are not rejected. *)
Theorem decode_reads_first_40 (code : list Z) :
  (40 <= length code)%nat ->
  decode code = decode (firstn 40 code) /\
  (Forall trit (firstn 40 code) ->
   exists rolling fixed,
     decode code = Ok (rolling, fixed) /\
     decode (firstn 40 code) = Ok (rolling, fixed)).
Proof.
  intros Hlen. split; [apply decode_firstn|].
  intros Ht.
  destruct (decode_nonneg_entries code Hlen) as (rolling & fixed & E).
  - eapply Forall_impl; [|exact Ht]. unfold trit. intros d Hd. lia.
  - exists rolling, fixed. split; [exact E|].
    now rewrite <- decode_firstn.
Qed.

Lemma decode_reads_first_40_witness :
  (40 <= length (repeat 1 41))%nat /\
  decode (repeat 1 41) = decode (firstn 40 (repeat 1 41)) /\
  exists rolling fixed,
    decode (repeat 1 41) = Ok (rolling, fixed) /\
    decode (firstn 40 (repeat 1 41)) = Ok (rolling, fixed).
Proof.
  assert (Hlen : (40 <= length (repeat 1 41))%nat) by (simpl; lia).
  destruct (decode_reads_first_40 (repeat 1 41) Hlen) as [H1 H2].
  split; [exact Hlen|]. split; [exact H1|].
  apply H2. simpl.
  repeat (apply Forall_cons; [right; left; reflexivity|]). apply Forall_nil.
Defined.
